(** * Bringin checkout: session store, provider adapter and verify handler

    A shallow embedding of the session-tracking core of bringin-checkout:
    - [packages/core/src/bringin-provider.ts]  (module [Provider]),
    - [packages/core/src/bringin-sessions.ts]  (module [Sessions]),
    - the verify handler [handleVerifyStatus]  (module [Verify]).

    The TypeScript runs on a JavaScript engine.  What the engine and the
    network supply (the clock, [fetch], the settlement API client, date
    parsing, the URL class) is gathered in a [Js.Runtime] record that every
    function takes as a parameter; what the repository's own code does with
    those answers is written out. *)

From Stdlib Require Import ZArith Lia Ascii Floats.PrimFloat.
From stdpp Require Import gmap strings list fin_maps pretty.

Local Open Scope string_scope.

(* ===================================================================== *)
(** ** JavaScript values, dates, exceptions and the effect monad          *)
(* ===================================================================== *)

Module Js.

(** The values [JSON.parse] and a property read can produce.  Numbers are
    IEEE-754 doubles; an object is the list of its own properties. *)
#[warnings="-register-all"]
Inductive JSValue : Type :=
  | JUndefined
  | JNull
  | JBool (b : bool)
  | JNum (n : float)
  | JStr (s : string)
  | JArr (items : list JSValue)
  | JObj (fields : list (string * JSValue)).

(** ToBoolean: [undefined], [null], [false], [0], [NaN] and [""] are falsy. *)
Definition truthy (v : JSValue) : bool :=
  match v with
  | JUndefined | JNull => false
  | JBool b => b
  | JNum n => negb (PrimFloat.eqb n 0%float) && PrimFloat.eqb n n
  | JStr s => negb (String.eqb s "")
  | JArr _ | JObj _ => true
  end.

(** [a || b] on values. *)
Definition or_else (a b : JSValue) : JSValue := if truthy a then a else b.

(** [v === true] and [v === 'lit']. *)
Definition is_true (v : JSValue) : bool :=
  match v with JBool true => true | _ => false end.

Definition is_str (v : JSValue) (lit : string) : bool :=
  match v with JStr s => String.eqb s lit | _ => false end.

(** An optional string used as a condition: [undefined] and [""] are falsy. *)
Definition present (o : option string) : bool :=
  match o with Some s => negb (String.eqb s "") | None => false end.

(** A [Date] object holds a time value: integer milliseconds since the
    epoch, or NaN for an Invalid Date ([None]). *)
Definition Date : Type := option Z.

(** Numbers that come out of [Date] arithmetic: an integer or NaN. *)
Definition getTime (d : Date) : option Z := d.

Definition num_sub (a b : option Z) : option Z :=
  match a, b with
  | Some x, Some y => Some (x - y)%Z
  | _, _ => None
  end.

(** [a > b]: false as soon as one side is NaN. *)
Definition num_gt (a b : option Z) : bool :=
  match a, b with
  | Some x, Some y => (y <? x)%Z
  | _, _ => false
  end.

Inductive Exn : Type :=
  | TypeError (msg : string)
  | RangeError (msg : string)
  | Error (msg : string).

(** How an evaluation ends: with a value, or with a thrown exception
    (for an [async] function: a fulfilled or a rejected promise). *)
Inductive Completion (A : Type) : Type :=
  | Normal (a : A)
  | Throw (e : Exn).
Arguments Normal {A} a.
Arguments Throw {A} e.

(** *** Date.prototype.toISOString *)

Definition digits (width : nat) (n : Z) : string :=
  let s := pretty (Z.to_N n) in
  String.concat "" (replicate (width - String.length s) "0") ++ s.

(** Civil date of a day count since 1970-01-01 (proleptic Gregorian). *)
Definition civil_from_days (days : Z) : Z * Z * Z :=
  let z := (days + 719468)%Z in
  let era := (z / 146097)%Z in
  let doe := (z - era * 146097)%Z in
  let yoe := ((doe - doe / 1460 + doe / 36524 - doe / 146096) / 365)%Z in
  let doy := (doe - (365 * yoe + yoe / 4 - yoe / 100))%Z in
  let mp := ((5 * doy + 2) / 153)%Z in
  let d := (doy - (153 * mp + 2) / 5 + 1)%Z in
  let m := (if (mp <? 10)%Z then mp + 3 else mp - 9)%Z in
  let y := (yoe + era * 400 + (if (m <=? 2)%Z then 1 else 0))%Z in
  (y, m, d).

Definition iso_year (y : Z) : string :=
  if ((0 <=? y) && (y <=? 9999))%Z then digits 4 y
  else (if (y <? 0)%Z then "-" else "+") ++ digits 6 (Z.abs y).

Definition iso_of_time (t : Z) : string :=
  let '(y, m, d) := civil_from_days (t / 86400000) in
  iso_year y ++ "-" ++ digits 2 m ++ "-" ++ digits 2 d ++ "T"
  ++ digits 2 (t / 3600000 mod 24) ++ ":" ++ digits 2 (t / 60000 mod 60) ++ ":"
  ++ digits 2 (t / 1000 mod 60) ++ "." ++ digits 3 (t mod 1000) ++ "Z".

(** [d.toISOString()] throws a RangeError on an Invalid Date. *)
Definition toISOString (d : Date) : Completion string :=
  match d with
  | Some t => Normal (iso_of_time t)
  | None => Throw (RangeError "Invalid time value")
  end.

(** *** The URL class

    A parsed URL, cut where the repository's code reads and writes it:
    everything before the path (scheme, credentials, host, port), the
    path, the query with its [?] and the fragment with its [#]. *)
Record URL : Type := {
  site : string;
  pathname : string;
  search : string;
  hash : string;
}.

(** [url.toString()]. *)
Definition href (u : URL) : string :=
  site u ++ pathname u ++ search u ++ hash u.

(** [URLSearchParams.prototype.set] on the list of pairs: the first pair
    of that name takes the value, later ones of that name go; with no
    such pair, one is appended. *)
Fixpoint params_set (name value : string) (l : list (string * string))
  : list (string * string) :=
  match l with
  | [] => [(name, value)]
  | (k, v) :: rest =>
      if String.eqb k name
      then (name, value) :: List.filter (fun kv => negb (String.eqb (fst kv) name)) rest
      else (k, v) :: params_set name value rest
  end.

(** [String.prototype.replace(pat, rep)] with a string pattern and a
    replacement free of [$]: the first occurrence only. *)
Fixpoint starts_with (pat s : string) : bool :=
  match pat, s with
  | EmptyString, _ => true
  | String a pat', String b s' => Ascii.eqb a b && starts_with pat' s'
  | String _ _, EmptyString => false
  end.

Fixpoint drop_chars (n : nat) (s : string) : string :=
  match n, s with
  | O, _ => s
  | S n', String _ s' => drop_chars n' s'
  | S _, EmptyString => EmptyString
  end.

Fixpoint replace (pat rep s : string) : string :=
  if starts_with pat s then rep ++ drop_chars (String.length pat) s
  else match s with
       | EmptyString => EmptyString
       | String c s' => String c (replace pat rep s')
       end.

(** [String.prototype.split(sep)] with a one-character separator. *)
Fixpoint split (sep : Ascii.ascii) (s : string) : list string :=
  match s with
  | EmptyString => [EmptyString]
  | String c s' =>
      if Ascii.eqb c sep then EmptyString :: split sep s'
      else match split sep s' with
           | p :: ps => String c p :: ps
           | [] => [String c EmptyString]
           end
  end.

(** Reading [parts[i]] inside a template string: a missing element
    prints as [undefined]. *)
Definition part (parts : list string) (i : nat) : string :=
  nth i parts "undefined".

(** [s.slice(0, n)]. *)
Definition slice0 (n : nat) (s : string) : string := String.substring 0 n s.

(** *** What the handler exchanges with the outside *)

(** A [fetch] response: [ok] is derived from the status as the Fetch
    standard defines it; [body] is what [response.json()] resolves to,
    [None] when it rejects. *)
Record Response : Type := {
  status : Z;
  statusText : string;
  body : option JSValue;
}.

Definition ok (r : Response) : bool :=
  ((200 <=? status r) && (status r <=? 299))%Z.

Inductive FetchOutcome : Type :=
  | NetworkError (e : Exn)
  | Responded (r : Response).

(** One entry of the [payments] array sent to [checkouts.paymentReceived]. *)
Record Payment : Type := {
  paymentHash : string;
  amountSats : float;
  sandbox : bool;
}.

(** What a call leaves outside the process, most recent first. *)
Inductive Event : Type :=
  | Fetched (url : string)
  | PaymentReceived (payments : list Payment)
  | ConsoleLog (msg : string)
  | ConsoleError (msg : string) (e : Exn).

(** The engine and the network.  Answers may depend on what happened
    before (the trace).  [Date_of v] is the time value of [new Date(v)]
    ([Date.parse] on strings is implementation-defined outside the ISO
    format); [createMoneyDevKitClient] and [paymentReceived] say whether
    the settlement client ([mdk.ts], not part of this development)
    throws; [path_of u p] is the path the [pathname] setter stores;
    [query_parse] and [query_serialize] are the form-urlencoded parser
    and serializer behind [searchParams]. *)
Record Runtime : Type := {
  clock : nat -> Z;
  fetch : list Event -> string -> FetchOutcome;
  createMoneyDevKitClient : list Event -> option Exn;
  paymentReceived : list Event -> list Payment -> option Exn;
  Date_of : JSValue -> Date;
  URL_parse : string -> option URL;
  path_of : URL -> string -> string;
  query_parse : string -> list (string * string);
  query_serialize : list (string * string) -> string;
}.

(** [url.pathname = p] and [url.searchParams.set(name, value)]. *)
Definition set_pathname (rt : Runtime) (u : URL) (p : string) : URL :=
  {| site := site u; pathname := path_of rt u p; search := search u; hash := hash u |}.

Definition searchParams_set (rt : Runtime) (u : URL) (name value : string) : URL :=
  {| site := site u; pathname := pathname u;
     search := "?" ++ query_serialize rt (params_set name value (query_parse rt (search u)));
     hash := hash u |}.

(** *** The effect monad

    The process state is the module state of the repository ([heap]),
    the number of clock readings taken so far and the trace. *)
Record World (St : Type) : Type := {
  heap : St;
  ticks : nat;
  trace : list Event;
}.
Arguments heap {St} w.
Arguments ticks {St} w.
Arguments trace {St} w.

Definition JS (St A : Type) : Type := World St -> Completion A * World St.

Definition ret {St A} (a : A) : JS St A := fun w => (Normal a, w).

Definition bind {St A B} (m : JS St A) (k : A -> JS St B) : JS St B :=
  fun w => match m w with
           | (Normal a, w') => k a w'
           | (Throw e, w') => (Throw e, w')
           end.

Definition throw {St A} (e : Exn) : JS St A := fun w => (Throw e, w).

(** [try { m } catch (error) { h error }]: the state written before the
    throw stays. *)
Definition try_catch {St A} (m : JS St A) (h : Exn -> JS St A) : JS St A :=
  fun w => match m w with
           | (Normal a, w') => (Normal a, w')
           | (Throw e, w') => h e w'
           end.

Definition lift {St A} (c : Completion A) : JS St A := fun w => (c, w).

Definition gets {St A} (f : St -> A) : JS St A := fun w => (Normal (f (heap w)), w).

Definition modify {St} (f : St -> St) : JS St unit :=
  fun w => (Normal tt, {| heap := f (heap w); ticks := ticks w; trace := trace w |}).

Definition emit {St} (e : Event) : JS St unit :=
  fun w => (Normal tt, {| heap := heap w; ticks := ticks w; trace := e :: trace w |}).

(** [Date.now()] and [new Date()]: one clock reading each. *)
Definition Date_now {St} (rt : Runtime) : JS St Z :=
  fun w => (Normal (clock rt (ticks w)),
            {| heap := heap w; ticks := S (ticks w); trace := trace w |}).

Definition new_Date {St} (rt : Runtime) : JS St Date :=
  fun w => (Normal (Some (clock rt (ticks w))),
            {| heap := heap w; ticks := S (ticks w); trace := trace w |}).

(** [await fetch(url, ...)]: rejects on a network error. *)
Definition do_fetch {St} (rt : Runtime) (url : string) : JS St Response :=
  fun w =>
    let w' := {| heap := heap w; ticks := ticks w; trace := Fetched url :: trace w |} in
    match fetch rt (trace w) url with
    | Responded r => (Normal r, w')
    | NetworkError e => (Throw e, w')
    end.

(** [await response.json()]. *)
Definition json {St} (r : Response) : JS St JSValue :=
  match body r with
  | Some v => ret v
  | None => throw (Error "Unexpected token in JSON")
  end.

(** [data.key]: a TypeError on [null] and [undefined]; [undefined] for a
    property the value does not have (none of the keys read in this
    development is a property of strings, numbers, booleans or arrays). *)
Fixpoint assoc (key : string) (fields : list (string * JSValue)) : JSValue :=
  match fields with
  | [] => JUndefined
  | (k, v) :: rest => if String.eqb k key then v else assoc key rest
  end.

Definition prop {St} (data : JSValue) (key : string) : JS St JSValue :=
  match data with
  | JUndefined | JNull => throw (TypeError ("Cannot read properties of null (reading '" ++ key ++ "')"))
  | JObj fields => ret (assoc key fields)
  | _ => ret JUndefined
  end.

(** [createMoneyDevKitClient()] followed by
    [await client.checkouts.paymentReceived({ payments })]: either may
    throw; the request leaves the process only if the client was made. *)
Definition client_paymentReceived {St} (rt : Runtime) (payments : list Payment)
  : JS St unit :=
  fun w =>
    match createMoneyDevKitClient rt (trace w) with
    | Some e => (Throw e, w)
    | None =>
        let w' := {| heap := heap w; ticks := ticks w;
                     trace := PaymentReceived payments :: trace w |} in
        match paymentReceived rt (trace w) payments with
        | Some e => (Throw e, w')
        | None => (Normal tt, w')
        end
    end.

End Js.

Notation "'let*' x ':=' m 'in' k" := (Js.bind m (fun x => k))
  (at level 10, x name, m at level 100, k at level 200).
Notation "m ';;' k" := (Js.bind m (fun _ => k))
  (at level 100, k at level 200, right associativity).

(* ===================================================================== *)
(** ** Shared types                                                       *)
(* ===================================================================== *)

(** ['pending' | 'paid' | 'expired']. *)
Inductive Status : Type := pending | paid | expired.

#[global] Instance Status_eq_dec : EqDecision Status.
Proof. solve_decision. Defined.

(** Modelled from the spec: [types.ts] ([Result], [success], [failure])
    is not among the sources.  "All fallible operations return a tagged
    result (success/failure) rather than raising", a failure being a
    structured [{code, message}]. *)
Record Failure : Type := { code : string; message : string }.

Inductive Result (T : Type) : Type :=
  | success (data : T)
  | failure (error : Failure).
Arguments success {T} data.
Arguments failure {T} error.

(** [result.error] used as a condition. *)
Definition is_failure {T} (r : Result T) : bool :=
  match r with failure _ => true | success _ => false end.

(* ===================================================================== *)
(** ** bringin-provider.ts                                                *)
(* ===================================================================== *)

Module Provider.

(** [BringinPaymentStatus].  The two optional fields hold whatever the
    response body held under those keys. *)
Record BringinPaymentStatus : Type := {
  status : Status;
  paidAt : Js.JSValue;
  eurCredited : Js.JSValue;
}.

(** [LnUrlPayCallback], the fields the verify URL is derived from. *)
Record LnUrlPayCallback : Type := {
  pr : string;
  verify : option string;
  k1 : option string;
  paymentHash : option string;
  checkingId : option string;
}.

(** [resolveLightningAddress]: user@domain to
    https://domain/.well-known/lnurlp/user. *)
Definition resolveLightningAddress (lnAddress : string) : Result string :=
  match Js.split "@"%char lnAddress with
  | [user; domain] =>
      if String.eqb user "" || String.eqb domain "" then
        failure {| code := "invalid_ln_address";
                   message := "Lightning Address must be in format user@domain" |}
      else success ("https://" ++ domain ++ "/.well-known/lnurlp/" ++ user)
  | _ =>
      failure {| code := "invalid_ln_address";
                 message := "Invalid Lightning Address format: " ++ lnAddress |}
  end.

Section WithRuntime.
Context (rt : Js.Runtime).

(** [getVerifyUrl]: [new URL(callback)] throws a TypeError when the
    callback does not parse. *)
Definition getVerifyUrl (callbackResponse : LnUrlPayCallback)
    (callback lnAddress : string) : Js.Completion string :=
  (* Priority 1: explicit verify URL in the response *)
  if Js.present (verify callbackResponse) then
    Js.Normal (default "" (verify callbackResponse))
  (* Priority 2: k1 token *)
  else if Js.present (k1 callbackResponse) then
    match Js.URL_parse rt callback with
    | None => Js.Throw (Js.TypeError "Invalid URL")
    | Some callbackUrl =>
        let verifyPath := Js.replace "/callback" "/verify" (Js.pathname callbackUrl) in
        let callbackUrl := Js.set_pathname rt callbackUrl verifyPath in
        let callbackUrl :=
          Js.searchParams_set rt callbackUrl "k1" (default "" (k1 callbackResponse)) in
        Js.Normal (Js.href callbackUrl)
    end
  (* Priority 3: paymentHash *)
  else if Js.present (paymentHash callbackResponse) then
    let domain := Js.part (Js.split "@"%char lnAddress) 1 in
    let handle := Js.part (Js.split "@"%char lnAddress) 0 in
    Js.Normal ("https://api." ++ domain ++ "/lnurlp/" ++ handle
               ++ "/verify?paymentHash=" ++ default "" (paymentHash callbackResponse))
  (* Priority 4: checkingId *)
  else if Js.present (checkingId callbackResponse) then
    let domain := Js.part (Js.split "@"%char lnAddress) 1 in
    let handle := Js.part (Js.split "@"%char lnAddress) 0 in
    Js.Normal ("https://api." ++ domain ++ "/lnurlp/" ++ handle
               ++ "/verify?checkingId=" ++ default "" (checkingId callbackResponse))
  (* Fallback: derive from the callback URL *)
  else
    match Js.URL_parse rt callback with
    | None => Js.Throw (Js.TypeError "Invalid URL")
    | Some callbackUrl =>
        Js.Normal (Js.href (Js.set_pathname rt callbackUrl
                     (Js.replace "/callback" "/verify" (Js.pathname callbackUrl))))
    end.

(** The body of the [try] block of [checkInvoiceStatus].  Property reads
    have no effect and fail alike on every key ([data] is [null] or it
    is not), so the reads of the condition cascade are taken up front. *)
Definition checkInvoiceStatus_try {St} (verifyUrl : string)
  : Js.JS St (Result BringinPaymentStatus) :=
  let* response := Js.do_fetch rt verifyUrl in
  if negb (Js.ok response) then
    if (Js.status response =? 404)%Z || (Js.status response =? 503)%Z then
      Js.ret (success {| status := pending; paidAt := Js.JUndefined;
                         eurCredited := Js.JUndefined |})
    else
      Js.ret (failure {| code := "verify_request_failed";
                         message := "Failed to check status: "
                                    ++ pretty (Js.status response) ++ " "
                                    ++ Js.statusText response |})
  else
    let* data := Js.json response in
    let* settled := Js.prop data "settled" in
    let* paid_ := Js.prop data "paid" in
    let* status_ := Js.prop data "status" in
    let* expired_ := Js.prop data "expired" in
    let* pending_ := Js.prop data "pending" in
    let status :=
      if Js.is_true settled || Js.is_true paid_ || Js.is_str status_ "paid" then paid
      else if Js.is_true expired_ || Js.is_str status_ "expired" then expired
      else if Js.is_true pending_ || Js.is_str status_ "pending" then pending
      else pending in
    let* settledAt := Js.prop data "settledAt" in
    let* paidAt := Js.prop data "paidAt" in
    let* eurCredited := Js.prop data "eurCredited" in
    Js.ret (success {| status := status;
                       paidAt := Js.or_else settledAt paidAt;
                       eurCredited := eurCredited |}).

(** [checkInvoiceStatus]: whatever the [try] block throws becomes
    [pending]. *)
Definition checkInvoiceStatus {St} (verifyUrl : string)
  : Js.JS St (Result BringinPaymentStatus) :=
  Js.try_catch (checkInvoiceStatus_try verifyUrl)
    (fun _ => Js.ret (success {| status := pending; paidAt := Js.JUndefined;
                                 eurCredited := Js.JUndefined |})).

End WithRuntime.

End Provider.

(* ===================================================================== *)
(** ** bringin-provider.ts: the LNURL-pay requests                        *)
(* ===================================================================== *)

Module Lnurl.

(** A double quote, for the messages that contain one. *)
Definition dquote : string := String (Ascii.ascii_of_nat 34) EmptyString.

(** [error instanceof Error ? error.message : String(error)]: every
    exception of this development is an [Error]. *)
Definition exn_message (e : Js.Exn) : string :=
  match e with
  | Js.TypeError msg | Js.RangeError msg | Js.Error msg => msg
  end.

(** [typeof v === 'number']. *)
Definition is_number (v : Js.JSValue) : bool :=
  match v with Js.JNum _ => true | _ => false end.



(** The failures of [requestInvoice] carry [data.reason] as the JSON
    gave it, so here a message is a value; the string messages are
    [JStr]. *)
Module Any.
Record Failure : Type := { code : string; message : Js.JSValue }.

Inductive Result (T : Type) : Type :=
  | success (data : T)
  | failure (error : Failure).
Arguments success {T} data.
Arguments failure {T} error.
End Any.



(** Hard-coded rate: 1 BTC = 100,000 EUR. *)
Definition BTC_EUR_RATE : float := 100000%float.


Definition satsToEur (sats : float) : float :=
  ((sats / 100000000) * BTC_EUR_RATE)%float.

Section WithRuntime.
Context (rt : Js.Runtime).

(** Two more functions of the engine: [Number.prototype.toString] and
    [Math.round]. *)
Context (Number_toString : float -> string) (Math_round : float -> float).


(** ToString on the values [JSON.parse] produces, as a template string
    and the [URL] and [URLSearchParams] arguments apply it: an array
    joins its elements with commas ([null] printing as nothing), an
    object prints as [[object Object]]. *)
Fixpoint to_string (v : Js.JSValue) : string :=
  match v with
  | Js.JUndefined => "undefined"
  | Js.JNull => "null"
  | Js.JBool true => "true"
  | Js.JBool false => "false"
  | Js.JNum n => Number_toString n
  | Js.JStr s => s
  | Js.JArr items =>
      String.concat ","
        (List.map (fun x => match x with
                            | Js.JUndefined | Js.JNull => ""
                            | _ => to_string x
                            end) items)
  | Js.JObj _ => "[object Object]"
  end.

(** The body of the [try] block of [fetchLnUrlPayParams]. *)
Definition fetchLnUrlPayParams_try {St} (url : string) : Js.JS St (Result Js.JSValue) :=
  let* response := Js.do_fetch rt url in
  if negb (Js.ok response) then
    Js.ret (failure {| code := "lnurl_fetch_failed";
                       message := "Failed to fetch LNURL params: "
                                      ++ pretty (Js.status response) ++ " "
                                      ++ Js.statusText response |})
  else
    let* data := Js.json response in
    (* validate the response *)
    let* tag := Js.prop data "tag" in
    if negb (Js.is_str tag "payRequest") then
      Js.ret (failure {| code := "invalid_lnurl_response";
                         message := "Expected tag " ++ dquote ++ "payRequest" ++ dquote
                                        ++ ", got: " ++ to_string tag |})
    else
      let* callback := Js.prop data "callback" in
      let* metadata := Js.prop data "metadata" in
      if negb (Js.truthy callback) || negb (Js.truthy metadata) then
        Js.ret (failure {| code := "invalid_lnurl_response";
                           message := "Missing required fields: callback or metadata" |})
      else
        let* minSendable := Js.prop data "minSendable" in
        let* maxSendable := Js.prop data "maxSendable" in
        if negb (is_number minSendable) || negb (is_number maxSendable) then
          Js.ret (failure {| code := "invalid_lnurl_response";
                             message := "minSendable and maxSendable must be numbers" |})
        else Js.ret (success data).

(** [fetchLnUrlPayParams]: the failure of the address resolution is
    handed on; what the [try] block throws becomes [lnurl_fetch_error]. *)
Definition fetchLnUrlPayParams {St} (lnAddress : string) : Js.JS St (Result Js.JSValue) :=
  match Provider.resolveLightningAddress lnAddress with
  | failure e => Js.ret (failure e)
  | success url =>
      Js.try_catch (fetchLnUrlPayParams_try url)
        (fun error =>
           Js.ret (failure {| code := "lnurl_fetch_error";
                              message := "Network error fetching LNURL params: "
                                             ++ exn_message error |}))
  end.

(** The body of the [try] block of [requestInvoice]. *)
Definition requestInvoice_try {St} (callback : string) (msats : float)
  : Js.JS St (Any.Result Js.JSValue) :=
  match Js.URL_parse rt callback with
  | None => Js.throw (Js.TypeError "Invalid URL")
  | Some callbackUrl =>
      (* the callback URL with the amount parameter *)
      let callbackUrl := Js.searchParams_set rt callbackUrl "amount" (Number_toString msats) in
      let* response := Js.do_fetch rt (Js.href callbackUrl) in
      if negb (Js.ok response) then
        Js.ret (Any.failure
                  {| Any.code := "invoice_request_failed";
                     Any.message := Js.JStr ("Failed to request invoice: "
                                         ++ pretty (Js.status response) ++ " "
                                         ++ Js.statusText response) |})
      else
        let* data := Js.json response in
        (* an error in the response *)
        let* status := Js.prop data "status" in
        let* reason := Js.prop data "reason" in
        if Js.is_str status "ERROR" || Js.truthy reason then
          Js.ret (Any.failure
                    {| Any.code := "invoice_request_error";
                       Any.message := Js.or_else reason
                                    (Js.JStr "Unknown error from LNURL callback") |})
        else
          (* the required field *)
          let* pr := Js.prop data "pr" in
          if negb (Js.truthy pr) then
            Js.ret (Any.failure
                      {| Any.code := "invalid_invoice_response";
                         Any.message := Js.JStr "Missing required field: pr (BOLT11 invoice)" |})
          else Js.ret (Any.success data)
  end.

(** [requestInvoice]: the range check stands before the [try]. *)
Definition requestInvoice {St} (callback : string) (msats minSendable maxSendable : float)
  : Js.JS St (Any.Result Js.JSValue) :=
  if PrimFloat.ltb msats minSendable || PrimFloat.ltb maxSendable msats then
    Js.ret (Any.failure
              {| Any.code := "amount_out_of_range";
                 Any.message := Js.JStr ("Amount " ++ Number_toString msats
                                     ++ " msats is outside allowed range: "
                                     ++ Number_toString minSendable ++ "-"
                                     ++ Number_toString maxSendable ++ " msats") |})
  else
    Js.try_catch (requestInvoice_try callback msats)
      (fun error =>
         Js.ret (Any.failure
                   {| Any.code := "invoice_request_error";
                      Any.message := Js.JStr ("Network error requesting invoice: "
                                          ++ exn_message error) |})).

(** [getVerifyUrl] as [createInvoiceFromLnAddress] calls it: on the
    parsed callback response and the [callback] of the parsed params,
    whose fields are whatever the JSON held ([Provider.getVerifyUrl] is
    the same function read at its declared types). *)
Definition getVerifyUrl_any {St} (callbackResponse callback : Js.JSValue)
    (lnAddress : string) : Js.JS St Js.JSValue :=
  let* verify := Js.prop callbackResponse "verify" in
  if Js.truthy verify then Js.ret verify
  else
    let* k1 := Js.prop callbackResponse "k1" in
    if Js.truthy k1 then
      match Js.URL_parse rt (to_string callback) with
      | None => Js.throw (Js.TypeError "Invalid URL")
      | Some callbackUrl =>
          let verifyPath := Js.replace "/callback" "/verify" (Js.pathname callbackUrl) in
          let callbackUrl := Js.set_pathname rt callbackUrl verifyPath in
          let callbackUrl := Js.searchParams_set rt callbackUrl "k1" (to_string k1) in
          Js.ret (Js.JStr (Js.href callbackUrl))
      end
    else
      let* paymentHash := Js.prop callbackResponse "paymentHash" in
      if Js.truthy paymentHash then
        let domain := Js.part (Js.split "@" lnAddress) 1 in
        let handle := Js.part (Js.split "@" lnAddress) 0 in
        Js.ret (Js.JStr ("https://api." ++ domain ++ "/lnurlp/" ++ handle
                         ++ "/verify?paymentHash=" ++ to_string paymentHash))
      else
        let* checkingId := Js.prop callbackResponse "checkingId" in
        if Js.truthy checkingId then
          let domain := Js.part (Js.split "@" lnAddress) 1 in
          let handle := Js.part (Js.split "@" lnAddress) 0 in
          Js.ret (Js.JStr ("https://api." ++ domain ++ "/lnurlp/" ++ handle
                           ++ "/verify?checkingId=" ++ to_string checkingId))
        else
          match Js.URL_parse rt (to_string callback) with
          | None => Js.throw (Js.TypeError "Invalid URL")
          | Some callbackUrl =>
              Js.ret (Js.JStr (Js.href (Js.set_pathname rt callbackUrl
                                 (Js.replace "/callback" "/verify"
                                    (Js.pathname callbackUrl)))))
          end.


End WithRuntime.

End Lnurl.

(* ===================================================================== *)
(** ** bringin-sessions.ts                                                *)
(* ===================================================================== *)

Module Sessions.

Record BringinCheckoutSession : Type := {
  checkoutId : string;
  lnAddress : string;
  eurAmount : float;
  sats : float;
  msats : float;
  bolt11 : string;
  verifyUrl : string;
  paymentHash : option string;
  createdAt : Js.Date;
  expiresAt : Js.Date;
  status : Status;
  paidAt : option Js.Date;
  lastCheckedAt : option Js.Date;
}.

(** [Omit<BringinCheckoutSession, 'status' | 'createdAt'>], the argument
    of [createSession]. *)
Module Omit.
Record t : Type := {
  checkoutId : string;
  lnAddress : string;
  eurAmount : float;
  sats : float;
  msats : float;
  bolt11 : string;
  verifyUrl : string;
  paymentHash : option string;
  expiresAt : Js.Date;
  paidAt : option Js.Date;
  lastCheckedAt : option Js.Date;
}.
End Omit.

(** The two module-level maps. *)
Record Store : Type := {
  sessions : gmap string BringinCheckoutSession;
  mockPaidTimestamps : gmap string Js.Date;
}.

Definition empty_store : Store :=
  {| sessions := ∅; mockPaidTimestamps := ∅ |}.

(** [{ ...session, status: 'pending', createdAt }]. *)
Definition fresh (session : Omit.t) (now : Js.Date) : BringinCheckoutSession :=
  {| checkoutId := Omit.checkoutId session;
     lnAddress := Omit.lnAddress session;
     eurAmount := Omit.eurAmount session;
     sats := Omit.sats session;
     msats := Omit.msats session;
     bolt11 := Omit.bolt11 session;
     verifyUrl := Omit.verifyUrl session;
     paymentHash := Omit.paymentHash session;
     createdAt := now;
     expiresAt := Omit.expiresAt session;
     status := pending;
     paidAt := Omit.paidAt session;
     lastCheckedAt := Omit.lastCheckedAt session |}.

(** The three assignments of [updateSessionStatus] on the session
    object: [paidAt] is written only when one is passed. *)
Definition touched (session : BringinCheckoutSession) (st : Status)
    (now : Js.Date) (paid_at : option Js.Date) : BringinCheckoutSession :=
  {| checkoutId := checkoutId session;
     lnAddress := lnAddress session;
     eurAmount := eurAmount session;
     sats := sats session;
     msats := msats session;
     bolt11 := bolt11 session;
     verifyUrl := verifyUrl session;
     paymentHash := paymentHash session;
     createdAt := createdAt session;
     expiresAt := expiresAt session;
     status := st;
     paidAt := match paid_at with Some d => Some d | None => paidAt session end;
     lastCheckedAt := Some now |}.

Section WithRuntime.
Context (rt : Js.Runtime).

Definition createSession (session : Omit.t) : Js.JS Store unit :=
  let* now := Js.new_Date rt in
  Js.modify (fun st =>
    {| sessions := <[Omit.checkoutId session := fresh session now]> (sessions st);
       mockPaidTimestamps := mockPaidTimestamps st |}).

Definition getSession (checkoutId : string)
  : Js.JS Store (option BringinCheckoutSession) :=
  Js.gets (fun st => sessions st !! checkoutId).

Definition updateSessionStatus (checkoutId : string) (status : Status)
    (paidAt : option Js.Date) : Js.JS Store unit :=
  let* session := Js.gets (fun st => sessions st !! checkoutId) in
  match session with
  | Some session =>
      let* now := Js.new_Date rt in
      Js.modify (fun st =>
        {| sessions := <[checkoutId := touched session status now paidAt]> (sessions st);
           mockPaidTimestamps := mockPaidTimestamps st |})
  | None => Js.ret tt
  end.

Definition deleteSession (checkoutId : string) : Js.JS Store unit :=
  Js.modify (fun st =>
    {| sessions := delete checkoutId (sessions st);
       mockPaidTimestamps := delete checkoutId (mockPaidTimestamps st) |}).

Definition clearAllSessions : Js.JS Store unit :=
  Js.modify (fun _ => {| sessions := ∅; mockPaidTimestamps := ∅ |}).

(** [getAllSessions]: the sessions, in the order of the finite map (the
    insertion order of the JavaScript [Map] is not kept). *)
Definition getAllSessions : Js.JS Store (list BringinCheckoutSession) :=
  Js.gets (fun st => (map_to_list (sessions st)).*2).

Definition isSessionExpired (session : BringinCheckoutSession) : Js.JS Store bool :=
  let* now := Js.new_Date rt in
  Js.ret (Js.num_gt (Js.getTime now) (Js.getTime (expiresAt session))).

Definition shouldMockPaid (checkoutId : string) (createdAt : Js.Date)
  : Js.JS Store bool :=
  (* already marked as mock paid *)
  let* has := Js.gets (fun st => bool_decide (is_Some (mockPaidTimestamps st !! checkoutId))) in
  if has then Js.ret true
  else
    (* auto-mark as paid 12 seconds after creation *)
    let* now := Js.Date_now rt in
    let elapsed := Js.num_sub (Some now) (Js.getTime createdAt) in
    if Js.num_gt elapsed (Some 12000%Z) then
      let* stamp := Js.new_Date rt in
      Js.modify (fun st =>
        {| sessions := sessions st;
           mockPaidTimestamps := <[checkoutId := stamp]> (mockPaidTimestamps st) |}) ;;
      Js.ret true
    else Js.ret false.

(** The condition of the sweep. *)
Definition stale (now : Js.Date) (session : BringinCheckoutSession) : bool :=
  bool_decide (status session = expired)
  && Js.num_gt (Js.num_sub (Js.getTime now) (Js.getTime (expiresAt session)))
               (Some 3600000%Z).

(** One turn of the loop over [sessions.entries()]. *)
Definition sweep (now : Js.Date) (checkoutId : string)
    (session : BringinCheckoutSession) (acc : Store * nat) : Store * nat :=
  if stale now session then
    ({| sessions := delete checkoutId (sessions acc.1);
        mockPaidTimestamps := delete checkoutId (mockPaidTimestamps acc.1) |},
     S acc.2)
  else acc.

(** [cleanupExpiredSessions]: the loop visits every entry that was in
    the map when it started (a [Map] iterator survives the deletion of
    the entry it stands on). *)
Definition cleanupExpiredSessions : Js.JS Store nat :=
  let* now := Js.new_Date rt in
  let* st := Js.gets (fun st => st) in
  let swept := map_fold (sweep now) (st, O) (sessions st) in
  Js.modify (fun _ => swept.1) ;;
  Js.ret swept.2.

End WithRuntime.

End Sessions.

(* ===================================================================== *)
(** ** The verify handler                                                 *)
(* ===================================================================== *)

Module Verify.

Record VerifyStatusResponse : Type := {
  status : Status;
  paidAt : option string;
  amountSatsReceived : option float;
}.

Section WithRuntime.
Context (rt : Js.Runtime).

(** The [try]/[catch] around the settlement API call; the handler has it
    twice, with [sandbox] and the logged text differing. *)
Definition notify (session : Sessions.BringinCheckoutSession) (sandbox : bool)
    (complaint : string) : Js.JS Sessions.Store unit :=
  Js.try_catch
    (Js.client_paymentReceived rt
       [ {| Js.paymentHash :=
              if Js.present (Sessions.paymentHash session)
              then default "" (Sessions.paymentHash session)
              else Js.slice0 32 (Sessions.bolt11 session);
            Js.amountSats := Sessions.sats session;
            Js.sandbox := sandbox |} ])
    (fun error => Js.emit (Js.ConsoleError complaint error)).

(** [session.paidAt?.toISOString()]. *)
Definition optional_iso (d : option Js.Date) : Js.JS Sessions.Store (option string) :=
  match d with
  | None => Js.ret None
  | Some d => let* s := Js.lift (Js.toISOString d) in Js.ret (Some s)
  end.

(** The branch taken when the poll failed or said [pending]. *)
Definition mock_fallback (checkoutId : string)
    (session : Sessions.BringinCheckoutSession)
  : Js.JS Sessions.Store (Result VerifyStatusResponse) :=
  let* mock := Sessions.shouldMockPaid rt checkoutId (Sessions.createdAt session) in
  if mock then
    Js.emit (Js.ConsoleLog ("[Bringin Demo] Mock payment confirmed for checkout: "
                            ++ checkoutId)) ;;
    let* paidAt := Js.new_Date rt in
    Sessions.updateSessionStatus rt checkoutId paid (Some paidAt) ;;
    notify session true "[Bringin] Failed to notify API of mock payment:" ;;
    let* iso := Js.lift (Js.toISOString paidAt) in
    Js.ret (success {| status := paid; paidAt := Some iso;
                       amountSatsReceived := Some (Sessions.sats session) |})
  else
    Js.ret (success {| status := pending; paidAt := None;
                       amountSatsReceived := None |}).

(** [handleVerifyStatus].  [session] is the object held by the store;
    the fields read from it after [updateSessionStatus] ([paymentHash],
    [bolt11], [sats]) are not among those the update writes. *)
Definition handleVerifyStatus (checkoutId : string)
  : Js.JS Sessions.Store (Result VerifyStatusResponse) :=
  let* found := Sessions.getSession checkoutId in
  match found with
  | None =>
      Js.ret (failure {| code := "session_not_found";
                         message := "No session found for checkout: " ++ checkoutId |})
  | Some session =>
      (* already paid: cached status *)
      if decide (Sessions.status session = paid) then
        let* iso := optional_iso (Sessions.paidAt session) in
        Js.ret (success {| status := paid; paidAt := iso;
                           amountSatsReceived := Some (Sessions.sats session) |})
      else
        let* isExpired := Sessions.isSessionExpired rt session in
        if isExpired then
          Sessions.updateSessionStatus rt checkoutId expired None ;;
          Js.ret (success {| status := expired; paidAt := None;
                             amountSatsReceived := None |})
        else
          (* poll the verify URL *)
          let* statusResult := Provider.checkInvoiceStatus rt (Sessions.verifyUrl session) in
          match statusResult with
          | failure _ => mock_fallback checkoutId session
          | success data =>
              match Provider.status data with
              | pending => mock_fallback checkoutId session
              | paid =>
                  let* paidAt :=
                    if Js.truthy (Provider.paidAt data)
                    then Js.ret (Js.Date_of rt (Provider.paidAt data))
                    else Js.new_Date rt in
                  Sessions.updateSessionStatus rt checkoutId paid (Some paidAt) ;;
                  notify session false "[Bringin] Failed to notify API of payment:" ;;
                  let* iso := Js.lift (Js.toISOString paidAt) in
                  Js.ret (success {| status := paid; paidAt := Some iso;
                                     amountSatsReceived := Some (Sessions.sats session) |})
              | expired =>
                  Sessions.updateSessionStatus rt checkoutId expired None ;;
                  Js.ret (success {| status := expired; paidAt := None;
                                     amountSatsReceived := None |})
              end
          end
  end.

(** A poll loop whose calls do not overlap: the handler called once per
    identifier, each call run to its end before the next starts and
    nothing else in between; a call that throws leaves its writes behind
    and the loop goes on.  Calls that overlap are in [Async] below. *)
Fixpoint poll_all (checkoutIds : list string) (w : Js.World Sessions.Store)
  : Js.World Sessions.Store :=
  match checkoutIds with
  | [] => w
  | checkoutId :: rest => poll_all rest (handleVerifyStatus checkoutId w).2
  end.

End WithRuntime.

End Verify.

(* ===================================================================== *)
(** ** The operations as one interface                                    *)
(* ===================================================================== *)

Module Api.

(** The exports of bringin-sessions.ts and the handler, as calls. *)
Inductive Call : Type :=
  | CreateSession (session : Sessions.Omit.t)
  | GetSession (checkoutId : string)
  | UpdateSessionStatus (checkoutId : string) (status : Status) (paidAt : option Js.Date)
  | DeleteSession (checkoutId : string)
  | ClearAllSessions
  | GetAllSessions
  | IsSessionExpired (session : Sessions.BringinCheckoutSession)
  | ShouldMockPaid (checkoutId : string) (createdAt : Js.Date)
  | CleanupExpiredSessions
  | HandleVerifyStatus (checkoutId : string).

(** The world a call leaves behind. *)
Definition run (rt : Js.Runtime) (c : Call) (w : Js.World Sessions.Store)
  : Js.World Sessions.Store :=
  match c with
  | CreateSession session => (Sessions.createSession rt session w).2
  | GetSession checkoutId => (Sessions.getSession checkoutId w).2
  | UpdateSessionStatus checkoutId status paidAt =>
      (Sessions.updateSessionStatus rt checkoutId status paidAt w).2
  | DeleteSession checkoutId => (Sessions.deleteSession checkoutId w).2
  | ClearAllSessions => (Sessions.clearAllSessions w).2
  | GetAllSessions => (Sessions.getAllSessions w).2
  | IsSessionExpired session => (Sessions.isSessionExpired rt session w).2
  | ShouldMockPaid checkoutId createdAt =>
      (Sessions.shouldMockPaid rt checkoutId createdAt w).2
  | CleanupExpiredSessions => (Sessions.cleanupExpiredSessions rt w).2
  | HandleVerifyStatus checkoutId => (Verify.handleVerifyStatus rt checkoutId w).2
  end.

Fixpoint run_all (rt : Js.Runtime) (cs : list Call) (w : Js.World Sessions.Store)
  : Js.World Sessions.Store :=
  match cs with
  | [] => w
  | c :: rest => run_all rt rest (run rt c w)
  end.

End Api.

(* ===================================================================== *)
(** ** Calls that overlap                                                 *)
(* ===================================================================== *)

(** [handleVerifyStatus] is an [async] function: a call runs to its next
    [await], and the rest runs when the awaited promise settles.  In
    between the event loop runs whatever is ready: other calls of the
    handler, the rest of other suspended calls, the callback of the
    cleanup timer ([setInterval] at the end of bringin-sessions.ts).
    The handler has two [await]s: on [checkInvoiceStatus] and on
    [client.checkouts.paymentReceived].  What the two requests will
    answer is asked of the runtime when the request leaves, as in the
    rest of this development, and kept with the suspended call until it
    is resumed; the runtime being arbitrary, so is the answer.  A
    suspended call keeps the [session] object it read at its start, of
    which it reads [createdAt], [paymentHash], [bolt11] and [sats] only,
    fields no function of the store writes; [updateSessionStatus] looks
    the session up again by its identifier. *)
Module Async.

(** A call suspended at one of the two [await]s of the handler. *)
Inductive Suspended : Type :=
  | AwaitPoll (checkoutId : string) (session : Sessions.BringinCheckoutSession)
      (statusResult : Result Provider.BringinPaymentStatus)
  | AwaitNotify (session : Sessions.BringinCheckoutSession) (paidAt : Js.Date)
      (complaint : string) (outcome : option Js.Exn).

(** How a turn of a call ends: the promise of the call settles, or the
    call is suspended again. *)
Inductive Step : Type :=
  | Done (result : Js.Completion (Result Verify.VerifyStatusResponse))
  | Suspend (k : Suspended).

Section WithRuntime.
Context (rt : Js.Runtime).

Definition done (r : Result Verify.VerifyStatusResponse) : Js.JS Sessions.Store Step :=
  Js.ret (Done (Js.Normal r)).

(** [return success({ status: 'paid', paidAt: paidAt.toISOString(), ... })]. *)
Definition finish (session : Sessions.BringinCheckoutSession) (paidAt : Js.Date)
  : Js.JS Sessions.Store Step :=
  let* iso := Js.lift (Js.toISOString paidAt) in
  done (success {| Verify.status := paid; Verify.paidAt := Some iso;
                   Verify.amountSatsReceived := Some (Sessions.sats session) |}).

(** The [try] block of the notification up to its [await]: a throw of
    [createMoneyDevKitClient] is caught and logged at once; otherwise
    the request leaves and the call is suspended until it settles. *)
Definition request_notification (session : Sessions.BringinCheckoutSession)
    (sandbox : bool) (complaint : string) (paidAt : Js.Date)
  : Js.JS Sessions.Store Step :=
  fun w =>
    match Js.createMoneyDevKitClient rt (Js.trace w) with
    | Some error => (Js.emit (Js.ConsoleError complaint error) ;; finish session paidAt) w
    | None =>
        let payments :=
          [ {| Js.paymentHash :=
                 if Js.present (Sessions.paymentHash session)
                 then default "" (Sessions.paymentHash session)
                 else Js.slice0 32 (Sessions.bolt11 session);
               Js.amountSats := Sessions.sats session;
               Js.sandbox := sandbox |} ] in
        (Js.Normal (Suspend (AwaitNotify session paidAt complaint
                               (Js.paymentReceived rt (Js.trace w) payments))),
         {| Js.heap := Js.heap w; Js.ticks := Js.ticks w;
            Js.trace := Js.PaymentReceived payments :: Js.trace w |})
    end.

(** The branch taken when the poll failed or said [pending]. *)
Definition mock_fallback (checkoutId : string)
    (session : Sessions.BringinCheckoutSession) : Js.JS Sessions.Store Step :=
  let* mock := Sessions.shouldMockPaid rt checkoutId (Sessions.createdAt session) in
  if mock then
    Js.emit (Js.ConsoleLog ("[Bringin Demo] Mock payment confirmed for checkout: "
                            ++ checkoutId)) ;;
    let* paidAt := Js.new_Date rt in
    Sessions.updateSessionStatus rt checkoutId paid (Some paidAt) ;;
    request_notification session true
      "[Bringin] Failed to notify API of mock payment:" paidAt
  else
    done (success {| Verify.status := pending; Verify.paidAt := None;
                     Verify.amountSatsReceived := None |}).

(** The call from its first line to [await checkInvoiceStatus(...)]. *)
Definition start (checkoutId : string) : Js.JS Sessions.Store Step :=
  let* found := Sessions.getSession checkoutId in
  match found with
  | None =>
      done (failure {| code := "session_not_found";
                       message := "No session found for checkout: " ++ checkoutId |})
  | Some session =>
      if decide (Sessions.status session = paid) then
        let* iso := Verify.optional_iso (Sessions.paidAt session) in
        done (success {| Verify.status := paid; Verify.paidAt := iso;
                         Verify.amountSatsReceived := Some (Sessions.sats session) |})
      else
        let* isExpired := Sessions.isSessionExpired rt session in
        if isExpired then
          Sessions.updateSessionStatus rt checkoutId expired None ;;
          done (success {| Verify.status := expired; Verify.paidAt := None;
                           Verify.amountSatsReceived := None |})
        else
          let* statusResult := Provider.checkInvoiceStatus rt (Sessions.verifyUrl session) in
          Js.ret (Suspend (AwaitPoll checkoutId session statusResult))
  end.

(** The rest of a suspended call, up to its next [await] or its end. *)
Definition resume (k : Suspended) : Js.JS Sessions.Store Step :=
  match k with
  | AwaitPoll checkoutId session statusResult =>
      match statusResult with
      | failure _ => mock_fallback checkoutId session
      | success data =>
          match Provider.status data with
          | pending => mock_fallback checkoutId session
          | paid =>
              let* paidAt :=
                if Js.truthy (Provider.paidAt data)
                then Js.ret (Js.Date_of rt (Provider.paidAt data))
                else Js.new_Date rt in
              Sessions.updateSessionStatus rt checkoutId paid (Some paidAt) ;;
              request_notification session false
                "[Bringin] Failed to notify API of payment:" paidAt
          | expired =>
              Sessions.updateSessionStatus rt checkoutId expired None ;;
              done (success {| Verify.status := expired; Verify.paidAt := None;
                               Verify.amountSatsReceived := None |})
          end
      end
  | AwaitNotify session paidAt complaint outcome =>
      match outcome with
      | Some error => Js.emit (Js.ConsoleError complaint error)
      | None => Js.ret tt
      end ;;
      finish session paidAt
  end.

(** A turn of a call on the world: what it throws settles the call. *)
Definition turn_of (m : Js.JS Sessions.Store Step) (w : Js.World Sessions.Store)
  : Step * Js.World Sessions.Store :=
  match m w with
  | (Js.Normal s, w') => (s, w')
  | (Js.Throw e, w') => (Done (Js.Throw e), w')
  end.

(** A call that nothing interrupts: each [await] is resumed at once.
    The handler has two [await]s on its longest path. *)
Fixpoint settle (awaits : nat) (s : Step * Js.World Sessions.Store)
  : Js.Completion (Result Verify.VerifyStatusResponse) * Js.World Sessions.Store :=
  match s with
  | (Done c, w) => (c, w)
  | (Suspend k, w) =>
      match awaits with
      | O => (Js.Throw (Js.Error "still suspended"), w)
      | S n => settle n (turn_of (resume k) w)
      end
  end.

Definition alone (checkoutId : string) (w : Js.World Sessions.Store)
  : Js.Completion (Result Verify.VerifyStatusResponse) * Js.World Sessions.Store :=
  settle 2 (turn_of (start checkoutId) w).

(** The process: the world and the calls in flight. *)
Record State : Type := {
  world : Js.World Sessions.Store;
  suspended : list Suspended;
}.

(** What the event loop runs next: a new call of the handler, the rest
    of a suspended call, or the callback of the cleanup timer. *)
Inductive Turn : Type :=
  | Call (checkoutId : string)
  | Resume (n : nat)
  | Sweep.

Definition landed (s : Step * Js.World Sessions.Store) (others : list Suspended) : State :=
  match s with
  | (Done _, w) => {| world := w; suspended := others |}
  | (Suspend k, w) => {| world := w; suspended := others ++ [k] |}
  end.

Definition turn (t : Turn) (st : State) : State :=
  match t with
  | Call checkoutId => landed (turn_of (start checkoutId) (world st)) (suspended st)
  | Resume n =>
      match suspended st !! n with
      | Some k => landed (turn_of (resume k) (world st)) (delete n (suspended st))
      | None => st
      end
  | Sweep =>
      {| world := (Sessions.cleanupExpiredSessions rt (world st)).2;
         suspended := suspended st |}
  end.

Fixpoint run (turns : list Turn) (st : State) : State :=
  match turns with
  | [] => st
  | t :: rest => run rest (turn t st)
  end.

End WithRuntime.

End Async.

(* ===================================================================== *)
(** ** Concrete runtimes and stores for the examples                      *)
(* ===================================================================== *)

Module Scenario.

(** *** A runtime for plain URLs

    [https://host/path?query#fragment] already in normal form, with
    nothing to percent-encode: on these the cuts below are where the URL
    standard cuts. *)
Fixpoint break (stop : Ascii.ascii -> bool) (s : string) : string * string :=
  match s with
  | EmptyString => (EmptyString, EmptyString)
  | String c s' =>
      if stop c then (EmptyString, s)
      else let '(a, b) := break stop s' in (String c a, b)
  end.

Definition one_of (cs : list Ascii.ascii) (c : Ascii.ascii) : bool :=
  existsb (Ascii.eqb c) cs.

Definition plain_URL_parse (s : string) : option Js.URL :=
  if Js.starts_with "https://" s then
    let '(host, r1) := break (one_of ["/"; "?"; "#"]%char) (Js.drop_chars 8 s) in
    let '(path, r2) := break (one_of ["?"; "#"]%char) r1 in
    let '(query, fragment) := break (one_of ["#"]%char) r2 in
    if String.eqb host "" then None
    else Some {| Js.site := "https://" ++ host;
                 Js.pathname := if String.eqb path "" then "/" else path;
                 Js.search := query;
                 Js.hash := fragment |}
  else None.

Definition plain_pair (kv : string) : string * string :=
  let '(k, v) := break (one_of ["="]%char) kv in (k, Js.drop_chars 1 v).

(** Empty sequences between [&] give no pair: [?] alone is an empty
    query. *)
Definition plain_query_parse (search : string) : list (string * string) :=
  plain_pair <$> List.filter (fun kv => negb (String.eqb kv ""))
                   (Js.split "&" (Js.drop_chars 1 search)).

Definition plain_query_serialize (l : list (string * string)) : string :=
  String.concat "&" ((fun kv => kv.1 ++ "=" ++ kv.2) <$> l).

(** The one timestamp string the examples parse; the other strings they
    pass to [new Date] are not dates at all. *)
Definition known_dates (v : Js.JSValue) : Js.Date :=
  match v with
  | Js.JStr s =>
      if String.eqb s "2024-05-01T10:00:00.000Z" then Some 1714557600000%Z else None
  | _ => None
  end.

Definition runtime (clock : nat -> Z)
    (fetch : list Js.Event -> string -> Js.FetchOutcome)
    (paymentReceived : list Js.Event -> list Js.Payment -> option Js.Exn)
  : Js.Runtime :=
  {| Js.clock := clock;
     Js.fetch := fetch;
     Js.createMoneyDevKitClient := fun _ => None;
     Js.paymentReceived := paymentReceived;
     Js.Date_of := known_dates;
     Js.URL_parse := plain_URL_parse;
     Js.path_of := fun _ p => p;
     Js.query_parse := plain_query_parse;
     Js.query_serialize := plain_query_serialize |}.

(** *** Responses of the verify endpoint *)

Definition respond (status : Z) (statusText : string) (body : option Js.JSValue)
  : Js.FetchOutcome :=
  Js.Responded {| Js.status := status; Js.statusText := statusText; Js.body := body |}.

Definition offline : list Js.Event -> string -> Js.FetchOutcome :=
  fun _ _ => Js.NetworkError (Js.TypeError "fetch failed").

Definition always (r : Js.FetchOutcome) : list Js.Event -> string -> Js.FetchOutcome :=
  fun _ _ => r.

(** The n-th request (counting the fetches already in the trace) gets
    the n-th answer; once the list is used up the endpoint is offline. *)
Definition fetches (history : list Js.Event) : nat :=
  length (List.filter (fun e => match e with Js.Fetched _ => true | _ => false end) history).

Definition in_turn (answers : list Js.FetchOutcome)
  : list Js.Event -> string -> Js.FetchOutcome :=
  fun history url =>
    nth (fetches history) answers (offline history url).

Definition api_up : list Js.Event -> list Js.Payment -> option Js.Exn :=
  fun _ _ => None.

Definition api_down : list Js.Event -> list Js.Payment -> option Js.Exn :=
  fun _ _ => Some (Js.Error "MDK API unreachable").

(** *** A checkout *)

Definition order : Sessions.Omit.t :=
  {| Sessions.Omit.checkoutId := "chk_1";
     Sessions.Omit.lnAddress := "store123@bringin.app";
     Sessions.Omit.eurAmount := 1%float;
     Sessions.Omit.sats := 1000%float;
     Sessions.Omit.msats := 1000000%float;
     Sessions.Omit.bolt11 := "lnbc10u1pexample";
     Sessions.Omit.verifyUrl := "https://api.bringin.app/lnurlp/store123/verify?paymentHash=ab12";
     Sessions.Omit.paymentHash := Some "ab12";
     Sessions.Omit.expiresAt := Some 900000%Z;
     Sessions.Omit.paidAt := None;
     Sessions.Omit.lastCheckedAt := None |}.

Definition boot : Js.World Sessions.Store :=
  {| Js.heap := Sessions.empty_store; Js.ticks := O; Js.trace := [] |}.

(** The world right after [createSession(order)]. *)
Definition ordered (rt : Js.Runtime) : Js.World Sessions.Store :=
  (Sessions.createSession rt order boot).2.

(** The process after [createSession(order)] and the given turns of the
    event loop. *)
Definition in_flight (rt : Js.Runtime) (turns : list Async.Turn) : Async.State :=
  Async.run rt turns {| Async.world := ordered rt; Async.suspended := [] |}.

Definition status_of (w : Js.World Sessions.Store) (checkoutId : string)
  : option Status :=
  Sessions.status <$> Sessions.sessions (Js.heap w) !! checkoutId.

Definition marked (w : Js.World Sessions.Store) (checkoutId : string) : bool :=
  bool_decide (is_Some (Sessions.mockPaidTimestamps (Js.heap w) !! checkoutId)).

(** *** Runtimes of the examples *)

(** A clock that gives the listed readings, then [last] for ever. *)
Definition clock_of (readings : list Z) (last : Z) : nat -> Z :=
  fun n => nth n readings last.

Definition body_of (fields : list (string * Js.JSValue)) : Js.FetchOutcome :=
  respond 200 "OK" (Some (Js.JObj fields)).

(** The provider first reports the invoice expired, then settled; the
    clock stays well before the local expiry. *)
Definition upstream_expired_then_paid : Js.Runtime :=
  runtime (clock_of [] 1000%Z)
    (in_turn [ body_of [("status", Js.JStr "expired")];
               body_of [("settled", Js.JBool true)] ])
    api_up.

(** The provider reports a payment with a timestamp that is no date. *)
Definition upstream_paid_undated : Js.Runtime :=
  runtime (clock_of [] 1000%Z)
    (always (body_of [("paid", Js.JBool true); ("paidAt", Js.JStr "soon")]))
    api_up.

(** The provider reports a payment; the settlement API is up. *)
Definition upstream_paid : Js.Runtime :=
  runtime (clock_of [] 1000%Z) (always (body_of [("settled", Js.JBool true)])) api_up.

(** The provider reports a dated payment while the settlement API is down. *)
Definition upstream_paid_api_down : Js.Runtime :=
  runtime (clock_of [] 1000%Z)
    (always (body_of [("settled", Js.JBool true);
                      ("settledAt", Js.JStr "2024-05-01T10:00:00.000Z")]))
    api_down.

(** The verify endpoint is unreachable, the settlement API is down, and
    thirteen seconds pass between the order and the poll. *)
Definition offline_after_13s : Js.Runtime :=
  runtime (clock_of [0%Z] 13000%Z) offline api_down.

(** Both a paid and an expired indicator in one body. *)
Definition paid_and_expired : Js.JSValue :=
  Js.JObj [("expired", Js.JBool true); ("paid", Js.JBool true)].

Definition upstream_paid_and_expired : Js.Runtime :=
  runtime (clock_of [] 1000%Z)
    (always (respond 200 "OK" (Some paid_and_expired)))
    api_up.

Definition upstream_500 : Js.Runtime :=
  runtime (clock_of [] 1000%Z)
    (always (respond 500 "Internal Server Error" None))
    api_up.

(** Ordered at 0, polled after the local expiry (900 s), endpoint offline. *)
Definition polled_after_expiry : Js.Runtime :=
  runtime (clock_of [0%Z] 1000000%Z) offline api_up.


(** Exactly twelve seconds on the clock. *)
Definition at_12s : Js.Runtime :=
  runtime (clock_of [] 12000%Z) offline api_up.

Definition at_12001ms : Js.Runtime :=
  runtime (clock_of [] 12001%Z) offline api_up.

(** Order at 0, mock check at 20 s, and a sweep long after the expiry. *)
Definition sweep_later : Js.Runtime :=
  runtime (clock_of [0; 20000; 20000; 20000]%Z 5000000%Z) offline api_up.

(** An order that was mock-paid once and then marked expired, through
    the store's own operations. *)
Definition expired_with_marker : Js.World Sessions.Store :=
  Api.run_all sweep_later
    [ Api.CreateSession order;
      Api.ShouldMockPaid "chk_1" (Some 0%Z);
      Api.UpdateSessionStatus "chk_1" expired None ]
    boot.



End Scenario.


(* ===================================================================== *)
(** ** Vocabulary of the statements                                       *)
(* ===================================================================== *)

Import Sessions.

(** How often a character occurs in a string. *)
Fixpoint occurrences (c : Ascii.ascii) (s : string) : nat :=
  match s with
  | EmptyString => O
  | String a s' => (if Ascii.eqb a c then 1 else 0) + occurrences c s'
  end.


(** The answer of [checkInvoiceStatus] when it has nothing to report. *)
Definition still_pending : Provider.BringinPaymentStatus :=
  {| Provider.status := pending; Provider.paidAt := Js.JUndefined;
     Provider.eurCredited := Js.JUndefined |}.

(** The indicators of a verify response body, in the words of the
    specification: a body "has [key === true]" or "has [status === lit]"
    when it is an object with that property. *)
Definition has_flag (data : Js.JSValue) (key : string) : bool :=
  match data with
  | Js.JObj fields => Js.is_true (Js.assoc key fields)
  | _ => false
  end.

Definition has_status (data : Js.JSValue) (lit : string) : bool :=
  match data with
  | Js.JObj fields => Js.is_str (Js.assoc "status" fields) lit
  | _ => false
  end.

Definition paid_indicator (data : Js.JSValue) : bool :=
  has_flag data "settled" || has_flag data "paid" || has_status data "paid".

Definition expired_indicator (data : Js.JSValue) : bool :=
  has_flag data "expired" || has_status data "expired".

(** The tri-state of the specification: paid wins over expired, which
    wins over pending. *)
Definition precedence (data : Js.JSValue) : Status :=
  if paid_indicator data then paid
  else if expired_indicator data then expired
  else pending.



(** The world after one request to [url], and after the clock reading of
    the handler's expiry check. *)
Definition polled {St} (url : string) (w : Js.World St) : Js.World St :=
  {| Js.heap := Js.heap w; Js.ticks := Js.ticks w; Js.trace := Js.Fetched url :: Js.trace w |}.

Definition after_expiry_check {St} (w : Js.World St) : Js.World St :=
  {| Js.heap := Js.heap w; Js.ticks := S (Js.ticks w); Js.trace := Js.trace w |}.

(** The entries the sweep removes. *)
Definition stale_entry (now : Js.Date) (kv : string * BringinCheckoutSession) : Prop :=
  stale now kv.2 = true.

#[global] Instance stale_entry_dec now kv : Decision (stale_entry now kv).
Proof. unfold stale_entry. apply _. Defined.

(** What one handler call may write: nothing, or the session it was
    called for (never one already paid, never back to pending), with at
    most a new mock marker for that same identifier. *)
Definition handler_writes (checkoutId : string) (before after : Store) : Prop :=
  after = before
  \/ exists s st now paid_at,
       sessions before !! checkoutId = Some s
       /\ status s <> paid
       /\ st <> pending
       /\ (st = paid -> is_Some paid_at)
       /\ sessions after = <[checkoutId := touched s st now paid_at]> (sessions before)
       /\ (mockPaidTimestamps after = mockPaidTimestamps before
           \/ exists stamp,
                mockPaidTimestamps before !! checkoutId = None
                /\ mockPaidTimestamps after
                   = <[checkoutId := stamp]> (mockPaidTimestamps before)).

(** The calls that delete from the marker map. *)
Definition removes_markers (c : Api.Call) : bool :=
  match c with
  | Api.DeleteSession _ | Api.ClearAllSessions | Api.CleanupExpiredSessions => true
  | _ => false
  end.

(** The paid results of the handler. *)
Definition cached (session : BringinCheckoutSession) : Verify.VerifyStatusResponse :=
  {| Verify.status := paid;
     Verify.paidAt := match paidAt session with
                      | Some (Some t) => Some (Js.iso_of_time t)
                      | _ => None
                      end;
     Verify.amountSatsReceived := Some (sats session) |}.

Definition paid_result (t : Z) (session : BringinCheckoutSession)
  : Verify.VerifyStatusResponse :=
  {| Verify.status := paid;
     Verify.paidAt := Some (Js.iso_of_time t);
     Verify.amountSatsReceived := Some (sats session) |}.

(** A poll that failed outright or said [pending]. *)
Definition inconclusive (r : Result Provider.BringinPaymentStatus) : bool :=
  match r with
  | failure _ => true
  | success data => bool_decide (Provider.status data = pending)
  end.

(** *** The session store *)

(** Every session sits under its own identifier. *)
Definition keyed (st : Store) : Prop :=
  forall id s, sessions st !! id = Some s -> checkoutId s = id.

(** A paid session has the time of the payment and of the check that
    found it; an expired one has the time of the check. *)
Definition stamped (st : Store) : Prop :=
  forall id s, sessions st !! id = Some s ->
    (status s = paid -> is_Some (paidAt s) /\ is_Some (lastCheckedAt s))
    /\ (status s = expired -> is_Some (lastCheckedAt s)).

(** The direct calls of [updateSessionStatus], which writes whatever
    status it is given. *)
Definition is_update (c : Api.Call) : bool :=
  match c with Api.UpdateSessionStatus _ _ _ => true | _ => false end.

(** The entries the sweep keeps, and the markers it keeps. *)
Definition kept (now : Js.Date) (kv : string * BringinCheckoutSession) : Prop :=
  stale now kv.2 = false.

#[global] Instance kept_dec now kv : Decision (kept now kv).
Proof. unfold kept. apply _. Defined.

Definition marker_kept (now : Js.Date) (ss : gmap string BringinCheckoutSession)
    (kv : string * Js.Date) : Prop :=
  match ss !! kv.1 with Some s => stale now s = false | None => True end.

#[global] Instance marker_kept_dec now ss kv : Decision (marker_kept now ss kv).
Proof. unfold marker_kept. destruct (ss !! kv.1); apply _. Defined.

(** *** The verify handler *)

(** Requests to a verify URL and notifications of the settlement API
    among the events of a trace. *)
Definition is_notification (e : Js.Event) : bool :=
  match e with Js.PaymentReceived _ => true | _ => false end.

Definition is_poll (e : Js.Event) : bool :=
  match e with Js.Fetched _ => true | _ => false end.

Definition notifications (ev : list Js.Event) : nat := length (List.filter is_notification ev).

Definition polls (ev : list Js.Event) : nat := length (List.filter is_poll ev).

(** The payment the handler reports for a session. *)
Definition payment_of (s : BringinCheckoutSession) (sandbox : bool) : Js.Payment :=
  {| Js.paymentHash := if Js.present (paymentHash s)
                       then default "" (paymentHash s)
                       else Js.slice0 32 (bolt11 s);
     Js.amountSats := sats s;
     Js.sandbox := sandbox |}.

(** The results of the handler other than the paid ones. *)
Definition not_found (id : string) : Result Verify.VerifyStatusResponse :=
  failure {| code := "session_not_found";
             message := "No session found for checkout: " ++ id |}.

Definition plain_response (st : Status) : Verify.VerifyStatusResponse :=
  {| Verify.status := st; Verify.paidAt := None; Verify.amountSatsReceived := None |}.

(** How a call that found the payment at [d] ends, and how a call on a
    session already paid ends: [toISOString] throws on an Invalid Date. *)
Definition paid_outcome (d : Js.Date) (s : BringinCheckoutSession)
  : Js.Completion (Result Verify.VerifyStatusResponse) :=
  match d with
  | Some t => Js.Normal (success (paid_result t s))
  | None => Js.Throw (Js.RangeError "Invalid time value")
  end.

Definition cached_outcome (s : BringinCheckoutSession)
  : Js.Completion (Result Verify.VerifyStatusResponse) :=
  match paidAt s with
  | Some None => Js.Throw (Js.RangeError "Invalid time value")
  | _ => Js.Normal (success (cached s))
  end.

(** The expiry check of the handler, on the clock reading it takes. *)
Definition past_expiry (rt : Js.Runtime) (w : Js.World Store) (s : BringinCheckoutSession) : bool :=
  Js.num_gt (Some (Js.clock rt (Js.ticks w))) (Js.getTime (expiresAt s)).

(** What one call may do to the marker map: nothing, or a first marker
    for its identifier. *)
Definition marker_step (id : string) (before after : gmap string Js.Date) : Prop :=
  after = before
  \/ exists stamp, before !! id = None /\ after = <[id := stamp]> before.

(** Whether the mock fallback fires in a world: a marker is there, or
    more than 12,000 ms have passed since the creation. *)
Definition mock_due (rt : Js.Runtime) (w : Js.World Store) (id : string)
    (s : BringinCheckoutSession) : bool :=
  bool_decide (is_Some (mockPaidTimestamps (Js.heap w) !! id))
  || Js.num_gt (Js.num_sub (Some (Js.clock rt (Js.ticks w))) (Js.getTime (createdAt s)))
               (Some 12000%Z).

(** The answer of the status poll of a call started in [w], the world
    after that poll, and the payment date taken from the answer. *)
Definition poll_answer (rt : Js.Runtime) (w : Js.World Store) (s : BringinCheckoutSession)
  : Js.Completion (Result Provider.BringinPaymentStatus) :=
  (Provider.checkInvoiceStatus rt (verifyUrl s) (after_expiry_check w)).1.

Definition after_poll (w : Js.World Store) (s : BringinCheckoutSession) : Js.World Store :=
  polled (verifyUrl s) (after_expiry_check w).

Definition provider_date (rt : Js.Runtime) (w : Js.World Store)
    (data : Provider.BringinPaymentStatus) : Js.Date :=
  if Js.truthy (Provider.paidAt data) then Js.Date_of rt (Provider.paidAt data)
  else Some (Js.clock rt (S (Js.ticks w))).

(** *** Calls that overlap *)

(** A call suspended at its status poll, for one identifier and for any;
    no call polling for an identifier; the polls in flight, counted. *)
Definition polling (id : string) (k : Async.Suspended) : bool :=
  match k with
  | Async.AwaitPoll checkoutId _ _ => String.eqb checkoutId id
  | Async.AwaitNotify _ _ _ _ => false
  end.

Definition settled (id : string) (calls : list Async.Suspended) : bool :=
  forallb (fun k => negb (polling id k)) calls.

Definition awaiting_poll (k : Async.Suspended) : bool :=
  match k with
  | Async.AwaitPoll _ _ _ => true
  | Async.AwaitNotify _ _ _ _ => false
  end.


(** The calls of the handler among the turns of the event loop. *)
Definition is_call (t : Async.Turn) : bool :=
  match t with Async.Call _ => true | _ => false end.

Definition calls (turns : list Async.Turn) : nat := length (List.filter is_call turns).

(** What a turn of a call may do to the sessions: nothing, or write the
    one stored under its identifier, never as [pending]. *)
Definition writes_status (id : string)
    (before after : gmap string BringinCheckoutSession) : Prop :=
  after = before
  \/ exists s0 st now paid_at,
       before !! id = Some s0 /\ st <> pending
       /\ after = <[id := touched s0 st now paid_at]> before.

(** *** The LNURL-pay requests *)

(** A property of a parsed body; a body that is no object has none. *)
Definition field (data : Js.JSValue) (key : string) : Js.JSValue :=
  match data with
  | Js.JObj fields => Js.assoc key fields
  | _ => Js.JUndefined
  end.

(** The bodies [fetchLnUrlPayParams] accepts as LNURL-pay params, and
    those [requestInvoice] accepts as an invoice. *)
Definition valid_params (data : Js.JSValue) : bool :=
  Js.is_str (field data "tag") "payRequest"
  && Js.truthy (field data "callback") && Js.truthy (field data "metadata")
  && Lnurl.is_number (field data "minSendable")
  && Lnurl.is_number (field data "maxSendable").

Definition valid_invoice (data : Js.JSValue) : bool :=
  negb (Js.is_str (field data "status") "ERROR")
  && negb (Js.truthy (field data "reason"))
  && Js.truthy (field data "pr").

(** An amount outside the range the params allow (false as soon as a
    bound is NaN). *)
Definition out_of_range (msats minSendable maxSendable : float) : bool :=
  PrimFloat.ltb msats minSendable || PrimFloat.ltb maxSendable msats.

(** The callback URL with its [amount] parameter set. *)
Definition invoice_url (rt : Js.Runtime) (Number_toString : float -> string)
    (u : Js.URL) (msats : float) : string :=
  Js.href (Js.searchParams_set rt u "amount" (Number_toString msats)).

(** A callback response of the declared type, as the value the JSON
    parser hands over: an absent optional field reads [undefined]. *)
Definition optional (o : option string) : Js.JSValue :=
  match o with Some s => Js.JStr s | None => Js.JUndefined end.

Definition untyped (r : Provider.LnUrlPayCallback) : Js.JSValue :=
  Js.JObj [("pr", Js.JStr (Provider.pr r));
           ("verify", optional (Provider.verify r));
           ("k1", optional (Provider.k1 r));
           ("paymentHash", optional (Provider.paymentHash r));
           ("checkingId", optional (Provider.checkingId r))].

Definition as_value (c : Js.Completion string) : Js.Completion Js.JSValue :=
  match c with
  | Js.Normal s => Js.Normal (Js.JStr s)
  | Js.Throw e => Js.Throw e
  end.




(* ===================================================================== *)
(** ** Strings                                                            *)
(* ===================================================================== *)

Lemma split_length c s : length (Js.split c s) = S (occurrences c s).
Proof.
  induction s as [|a s IH]; simpl; [done|].
  destruct (Ascii.eqb a c); simpl; [by rewrite IH|].
  destruct (Js.split c s) as [|p ps]; simpl in *; lia.
Qed.

Lemma split_none c s : occurrences c s = O -> Js.split c s = [s].
Proof.
  induction s as [|a s IH]; simpl; [done|].
  destruct (Ascii.eqb a c); simpl; [done|].
  intros H. by rewrite IH.
Qed.

Lemma split_at c u d :
  occurrences c u = O -> Js.split c (u ++ String c d) = u :: Js.split c d.
Proof.
  induction u as [|a u IH]; simpl.
  - intros _. by rewrite Ascii.eqb_refl.
  - destruct (Ascii.eqb a c); simpl; [done|].
    intros H. by rewrite IH.
Qed.

Lemma split_address user domain :
  occurrences "@" user = O -> occurrences "@" domain = O ->
  Js.split "@" (user ++ "@" ++ domain) = [user; domain].
Proof.
  intros Hu Hd. change ("@" ++ domain) with (String "@" domain).
  by rewrite split_at, (split_none _ domain).
Qed.






(* ===================================================================== *)
(** ** The provider adapter                                               *)
(* ===================================================================== *)

(** C7 (amended).  An address [user@domain] with exactly one [@] and
    non-empty user and domain resolves to
    [https://domain/.well-known/lnurlp/user]; an address whose number of
    [@] is not one (none, or more than one), and an address with one [@]
    and an empty user or an empty domain, fail with the failure code
    [invalid_ln_address]. *)
Theorem resolveLightningAddress_spec (lnAddress : string) :
  (forall user domain,
      lnAddress = user ++ "@" ++ domain ->
      occurrences "@" user = O -> occurrences "@" domain = O ->
      String.eqb user "" = false -> String.eqb domain "" = false ->
      Provider.resolveLightningAddress lnAddress
      = success ("https://" ++ domain ++ "/.well-known/lnurlp/" ++ user))
  /\ (occurrences "@" lnAddress <> 1%nat ->
      Provider.resolveLightningAddress lnAddress
      = failure {| code := "invalid_ln_address";
                   message := "Invalid Lightning Address format: " ++ lnAddress |})
  /\ (forall user domain,
      lnAddress = user ++ "@" ++ domain ->
      occurrences "@" user = O -> occurrences "@" domain = O ->
      String.eqb user "" || String.eqb domain "" = true ->
      Provider.resolveLightningAddress lnAddress
      = failure {| code := "invalid_ln_address";
                   message := "Lightning Address must be in format user@domain" |}).
Proof.
  unfold Provider.resolveLightningAddress. split; [|split].
  - intros user domain -> Hu Hd Hue Hde.
    by rewrite split_address, Hue, Hde.
  - intros Hn. pose proof (split_length "@" lnAddress) as Hlen.
    destruct (Js.split "@" lnAddress) as [|a [|b [|c l]]]; simpl in Hlen; try done.
    lia.
  - intros user domain -> Hu Hd He.
    by rewrite split_address, He.
Qed.

Lemma resolveLightningAddress_spec_witness :
  Provider.resolveLightningAddress "store123@bringin.app"
  = success "https://bringin.app/.well-known/lnurlp/store123".
Proof.
  apply (proj1 (resolveLightningAddress_spec "store123@bringin.app")
           "store123" "bringin.app"); reflexivity.
Defined.

(** C7, as stated, fails on the failure code: an address without [@] is
    refused with [invalid_ln_address], not with [invalid_address]. *)
Lemma resolveLightningAddress_code_is_not_invalid_address :
  Provider.resolveLightningAddress "store123bringin.app"
  = failure {| code := "invalid_ln_address";
               message := "Invalid Lightning Address format: store123bringin.app" |}
  /\ Provider.resolveLightningAddress "store123bringin.app"
     <> failure {| code := "invalid_address";
                   message := "Invalid Lightning Address format: store123bringin.app" |}.
Proof. split; [reflexivity | discriminate]. Qed.

Section Priority.
Context (rt : Js.Runtime) (callbackResponse : Provider.LnUrlPayCallback)
  (callback lnAddress : string).


End Priority.



Ltac poll_unfold :=
  unfold Provider.checkInvoiceStatus, Provider.checkInvoiceStatus_try,
    Js.try_catch, Js.bind, Js.do_fetch, Js.json, Js.prop, Js.ret, Js.throw in *.

(** The poll always returns, and all it leaves behind is one request in
    the trace. *)
Lemma checkInvoiceStatus_total {St} rt url (w : Js.World St) :
  exists r, Provider.checkInvoiceStatus rt url w = (Js.Normal r, polled url w).
Proof.
  poll_unfold. unfold polled.
  destruct (Js.fetch rt (Js.trace w) url) as [e|resp]; [by eexists|].
  destruct (Js.ok resp); simpl.
  - destruct (Js.body resp) as [data|]; [|by eexists].
    destruct data; by eexists.
  - destruct (_ || _); by eexists.
Qed.

(** C4 (amended).  [checkInvoiceStatus] always returns a result: a
    network error, a 404 or 503 response, and a success response whose
    body does not parse each give success with status [pending]; a
    success response never gives a failure; every other non-success
    status gives the failure [verify_request_failed], and that is the
    only failure. *)
Theorem checkInvoiceStatus_outcomes {St} rt verifyUrl (w : Js.World St) :
  exists r,
    (Provider.checkInvoiceStatus rt verifyUrl w).1 = Js.Normal r
    /\ match Js.fetch rt (Js.trace w) verifyUrl with
       | Js.NetworkError _ => r = success still_pending
       | Js.Responded response =>
           if Js.ok response then
             is_failure r = false
             /\ (Js.body response = None -> r = success still_pending)
           else if (Js.status response =? 404)%Z || (Js.status response =? 503)%Z
           then r = success still_pending
           else r = failure
                      {| code := "verify_request_failed";
                         message := "Failed to check status: "
                                    ++ pretty (Js.status response) ++ " "
                                    ++ Js.statusText response |}
       end.
Proof.
  poll_unfold.
  destruct (Js.fetch rt (Js.trace w) verifyUrl) as [e|resp]; [by eexists|].
  destruct (Js.ok resp); simpl.
  - destruct (Js.body resp) as [data|]; [|by eexists].
    destruct data; by eexists.
  - destruct (_ || _); by eexists.
Qed.

(** C4, as stated, fails on the failure code: a 500 response gives
    [verify_request_failed], not [request_failed]. *)
Lemma checkInvoiceStatus_code_is_not_request_failed :
  (Provider.checkInvoiceStatus Scenario.upstream_500
     "https://api.bringin.app/lnurlp/store123/verify" Scenario.boot).1
  = Js.Normal (failure {| code := "verify_request_failed";
                          message := "Failed to check status: 500 Internal Server Error" |})
  /\ (Provider.checkInvoiceStatus Scenario.upstream_500
        "https://api.bringin.app/lnurlp/store123/verify" Scenario.boot).1
     <> Js.Normal (failure {| code := "request_failed";
                              message := "Failed to check status: 500 Internal Server Error" |}).
Proof. split; [reflexivity | discriminate]. Qed.

(** C5.  For a success response with a parsed body, the status of the
    result follows the fixed precedence: [paid] when the body has
    [settled === true], [paid === true] or [status === 'paid'];
    otherwise [expired] when it has [expired === true] or
    [status === 'expired']; otherwise [pending].  A body with both a
    paid and an expired indicator gives [paid]. *)
Theorem checkInvoiceStatus_precedence {St} rt verifyUrl (w : Js.World St)
    response data :
  Js.fetch rt (Js.trace w) verifyUrl = Js.Responded response ->
  Js.ok response = true ->
  Js.body response = Some data ->
  exists r,
    (Provider.checkInvoiceStatus rt verifyUrl w).1 = Js.Normal (success r)
    /\ Provider.status r = precedence data
    /\ (paid_indicator data = true -> Provider.status r = paid)
    /\ (paid_indicator data = false -> expired_indicator data = true ->
        Provider.status r = expired)
    /\ (paid_indicator data = false -> expired_indicator data = false ->
        Provider.status r = pending).
Proof.
  intros Hfetch Hok Hbody. poll_unfold. rewrite Hfetch, Hok, Hbody. simpl.
  assert (forall st, st = precedence data ->
    (paid_indicator data = true -> st = paid)
    /\ (paid_indicator data = false -> expired_indicator data = true -> st = expired)
    /\ (paid_indicator data = false -> expired_indicator data = false -> st = pending))
    as Hcases.
  { intros st ->. unfold precedence.
    destruct (paid_indicator data), (expired_indicator data); naive_solver. }
  destruct data as [| |b|n|s|items|fields]; simpl;
    try (eexists; split; [reflexivity|]; split; [reflexivity|]; by apply Hcases).
  eexists; split; [reflexivity|]. simpl.
  match goal with |- ?st = _ /\ _ => assert (st = precedence (Js.JObj fields)) as Hst end.
  { unfold precedence, paid_indicator, expired_indicator, has_flag, has_status.
    destruct (_ || _ || _); [done|]. destruct (_ || _); [done|]. by destruct (_ || _). }
  split; [done|]. by apply Hcases.
Qed.

Lemma checkInvoiceStatus_precedence_witness :
  exists r,
    (Provider.checkInvoiceStatus Scenario.upstream_paid_and_expired
       "https://api.bringin.app/lnurlp/store123/verify" Scenario.boot).1
    = Js.Normal (success r)
    /\ Provider.status r = precedence Scenario.paid_and_expired
    /\ (paid_indicator Scenario.paid_and_expired = true -> Provider.status r = paid)
    /\ (paid_indicator Scenario.paid_and_expired = false ->
        expired_indicator Scenario.paid_and_expired = true ->
        Provider.status r = expired)
    /\ (paid_indicator Scenario.paid_and_expired = false ->
        expired_indicator Scenario.paid_and_expired = false ->
        Provider.status r = pending).
Proof.
  apply (checkInvoiceStatus_precedence Scenario.upstream_paid_and_expired
           "https://api.bringin.app/lnurlp/store123/verify" Scenario.boot
           {| Js.status := 200; Js.statusText := "OK";
              Js.body := Some Scenario.paid_and_expired |}
           Scenario.paid_and_expired);
    reflexivity.
Defined.

(* ===================================================================== *)
(** ** The session store                                                  *)
(* ===================================================================== *)

Lemma bind_run {St A B} (m : Js.JS St A) (k : A -> Js.JS St B) w a w' :
  m w = (Js.Normal a, w') -> Js.bind m k w = k a w'.
Proof. unfold Js.bind. by intros ->. Qed.

Lemma bind_throw {St A B} (m : Js.JS St A) (k : A -> Js.JS St B) w e w' :
  m w = (Js.Throw e, w') -> Js.bind m k w = (Js.Throw e, w').
Proof. unfold Js.bind. by intros ->. Qed.

Lemma createSession_run rt (session : Omit.t) (w : Js.World Store) :
  createSession rt session w
  = (Js.Normal tt,
     {| Js.heap :=
          {| sessions := <[Omit.checkoutId session :=
                             fresh session (Some (Js.clock rt (Js.ticks w)))]>
                           (sessions (Js.heap w));
             mockPaidTimestamps := mockPaidTimestamps (Js.heap w) |};
        Js.ticks := S (Js.ticks w);
        Js.trace := Js.trace w |}).
Proof. reflexivity. Qed.

Lemma updateSessionStatus_hit rt checkoutId st paid_at (w : Js.World Store) s :
  sessions (Js.heap w) !! checkoutId = Some s ->
  updateSessionStatus rt checkoutId st paid_at w
  = (Js.Normal tt,
     {| Js.heap :=
          {| sessions := <[checkoutId := touched s st (Some (Js.clock rt (Js.ticks w))) paid_at]>
                           (sessions (Js.heap w));
             mockPaidTimestamps := mockPaidTimestamps (Js.heap w) |};
        Js.ticks := S (Js.ticks w);
        Js.trace := Js.trace w |}).
Proof.
  intros H. unfold updateSessionStatus, Js.bind, Js.gets. by rewrite H.
Qed.

Lemma shouldMockPaid_marked rt checkoutId createdAt (w : Js.World Store) :
  is_Some (mockPaidTimestamps (Js.heap w) !! checkoutId) ->
  shouldMockPaid rt checkoutId createdAt w = (Js.Normal true, w).
Proof.
  intros Hsome. unfold shouldMockPaid, Js.bind, Js.gets.
  by rewrite bool_decide_eq_true_2.
Qed.

(** C2 (amended).  With no marker for the identifier, [shouldMockPaid]
    returns false while the elapsed time since [createdAt] is at most
    12,000 ms, and returns true, recording a marker stamped with the
    next clock reading, once it is more than 12,000 ms; with a marker
    it returns true whatever [createdAt] is, and changes nothing. *)
Theorem shouldMockPaid_threshold rt checkoutId (created : Z) (w : Js.World Store) :
  let elapsed := (Js.clock rt (Js.ticks w) - created)%Z in
  (mockPaidTimestamps (Js.heap w) !! checkoutId = None ->
   ((elapsed <= 12000)%Z ->
    shouldMockPaid rt checkoutId (Some created) w
    = (Js.Normal false,
       {| Js.heap := Js.heap w; Js.ticks := S (Js.ticks w); Js.trace := Js.trace w |}))
   /\ ((12000 < elapsed)%Z ->
       shouldMockPaid rt checkoutId (Some created) w
       = (Js.Normal true,
          {| Js.heap :=
               {| sessions := sessions (Js.heap w);
                  mockPaidTimestamps :=
                    <[checkoutId := Some (Js.clock rt (S (Js.ticks w)))]>
                      (mockPaidTimestamps (Js.heap w)) |};
             Js.ticks := S (S (Js.ticks w));
             Js.trace := Js.trace w |})))
  /\ (is_Some (mockPaidTimestamps (Js.heap w) !! checkoutId) ->
      forall createdAt, shouldMockPaid rt checkoutId createdAt w = (Js.Normal true, w)).
Proof.
  cbv zeta. split.
  - intros Hnone.
    unfold shouldMockPaid, Js.bind, Js.gets, Js.Date_now, Js.new_Date, Js.modify, Js.ret.
    rewrite (bool_decide_eq_false_2 (is_Some _))
      by (rewrite Hnone; by intros [? ?]).
    simpl. split; intros Hle.
    + by rewrite (proj2 (Z.ltb_ge _ _)) by lia.
    + by rewrite (proj2 (Z.ltb_lt _ _)) by lia.
  - intros Hsome createdAt. by apply shouldMockPaid_marked.
Qed.

Lemma shouldMockPaid_threshold_witness :
  shouldMockPaid Scenario.at_12001ms "chk_1" (Some 0%Z) Scenario.boot
  = (Js.Normal true,
     {| Js.heap :=
          {| sessions := sessions (Js.heap Scenario.boot);
             mockPaidTimestamps :=
               <["chk_1" := Some (Js.clock Scenario.at_12001ms (S (Js.ticks Scenario.boot)))]>
                 (mockPaidTimestamps (Js.heap Scenario.boot)) |};
        Js.ticks := S (S (Js.ticks Scenario.boot));
        Js.trace := Js.trace Scenario.boot |}).
Proof.
  apply (proj2 (proj1 (shouldMockPaid_threshold Scenario.at_12001ms "chk_1" 0%Z Scenario.boot)
                  eq_refl)).
  vm_compute. reflexivity.
Defined.

(** C2, as stated, fails at the boundary: with exactly 12,000 ms elapsed
    and no marker, the answer is false. *)
Lemma shouldMockPaid_false_at_12000 :
  (Js.clock Scenario.at_12s (Js.ticks Scenario.boot) - 0 = 12000)%Z
  /\ mockPaidTimestamps (Js.heap Scenario.boot) !! "chk_1" = None
  /\ (shouldMockPaid Scenario.at_12s "chk_1" (Some 0%Z) Scenario.boot).1 = Js.Normal false.
Proof. split_and!; reflexivity. Qed.

Lemma stale_iff now s :
  stale now s = true <->
  status s = expired
  /\ exists t e, now = Some t /\ expiresAt s = Some e /\ (3600000 < t - e)%Z.
Proof.
  unfold stale. rewrite andb_true_iff, bool_decide_eq_true.
  destruct now as [t|], (expiresAt s) as [e|]; simpl;
    try (split; [intros [? ?]; done | intros (? & ? & ? & ? & ? & ?); done]).
  rewrite Z.ltb_lt. split.
  - intros [? ?]. split; [done|]. by exists t, e.
  - intros (? & t' & e' & [= <-] & [= <-] & ?). done.
Qed.

(** The loop of the sweep, by induction on the entries it has visited:
    every visited stale entry is gone from both maps, everything else
    is as it was, and the counter is the number of stale entries. *)
Lemma sweep_fold now (st : Store) (m : gmap string BringinCheckoutSession) :
  let r := map_fold (sweep now) (st, O) m in
  (forall id,
      sessions r.1 !! id
      = match m !! id with
        | Some s => if stale now s then None else sessions st !! id
        | None => sessions st !! id
        end)
  /\ (forall id,
      mockPaidTimestamps r.1 !! id
      = match m !! id with
        | Some s => if stale now s then None else mockPaidTimestamps st !! id
        | None => mockPaidTimestamps st !! id
        end)
  /\ r.2 = size (filter (stale_entry now) m).
Proof.
  cbv zeta.
  apply (map_fold_weak_ind (fun r m =>
    (forall id, sessions r.1 !! id
      = match m !! id with
        | Some s => if stale now s then None else sessions st !! id
        | None => sessions st !! id
        end)
    /\ (forall id, mockPaidTimestamps r.1 !! id
      = match m !! id with
        | Some s => if stale now s then None else mockPaidTimestamps st !! id
        | None => mockPaidTimestamps st !! id
        end)
    /\ r.2 = size (filter (stale_entry now) m))).
  - split; [|split]; [done|done|]. by rewrite map_filter_empty, map_size_empty.
  - intros i x m' r Hi (IHs & IHm & IHn). unfold sweep.
    destruct (stale now x) eqn:Hx; simpl.
    + split; [|split].
      * intros id. destruct (decide (id = i)) as [->|Hne].
        -- by rewrite lookup_delete_eq, lookup_insert_eq, Hx.
        -- by rewrite lookup_delete_ne, lookup_insert_ne, IHs.
      * intros id. destruct (decide (id = i)) as [->|Hne].
        -- by rewrite lookup_delete_eq, lookup_insert_eq, Hx.
        -- by rewrite lookup_delete_ne, lookup_insert_ne, IHm.
      * rewrite map_filter_insert_True by done.
        rewrite map_size_insert_None; [by rewrite IHn|].
        by rewrite map_lookup_filter_None; left.
    + split; [|split].
      * intros id. destruct (decide (id = i)) as [->|Hne].
        -- by rewrite IHs, Hi, lookup_insert_eq, Hx.
        -- by rewrite lookup_insert_ne, IHs.
      * intros id. destruct (decide (id = i)) as [->|Hne].
        -- by rewrite IHm, Hi, lookup_insert_eq, Hx.
        -- by rewrite lookup_insert_ne, IHm.
      * rewrite map_filter_insert_False by (unfold stale_entry; simpl; congruence).
        by rewrite delete_id.
Qed.

(** C9.  [cleanupExpiredSessions] returns the number of sessions whose
    status is [expired] and whose expiry timestamp lies more than
    3,600,000 ms before the clock reading; afterwards exactly those
    sessions are gone, each with its mock marker, and every other
    session and every other marker is as it was. *)
Theorem cleanupExpiredSessions_spec rt (w : Js.World Store) :
  let now := Some (Js.clock rt (Js.ticks w)) in
  let before := Js.heap w in
  let after := Js.heap (cleanupExpiredSessions rt w).2 in
  (cleanupExpiredSessions rt w).1
  = Js.Normal (size (filter (stale_entry now) (sessions before)))
  /\ (forall id,
      sessions after !! id
      = match sessions before !! id with
        | Some s => if stale now s then None else Some s
        | None => None
        end)
  /\ (forall id,
      mockPaidTimestamps after !! id
      = match sessions before !! id with
        | Some s => if stale now s then None else mockPaidTimestamps before !! id
        | None => mockPaidTimestamps before !! id
        end)
  /\ (forall s,
      stale now s = true <->
      status s = expired
      /\ exists e, expiresAt s = Some e
                   /\ (3600000 < Js.clock rt (Js.ticks w) - e)%Z).
Proof.
  cbv zeta.
  unfold cleanupExpiredSessions, Js.bind, Js.new_Date, Js.gets, Js.modify, Js.ret. simpl.
  destruct (sweep_fold (Some (Js.clock rt (Js.ticks w))) (Js.heap w) (sessions (Js.heap w)))
    as (Hs & Hm & Hn).
  split; [by rewrite Hn|]. split; [|split].
  - intros id. rewrite Hs.
    by destruct (sessions (Js.heap w) !! id) as [s|] eqn:E; [destruct (stale _ s)|].
  - intros id. by rewrite Hm.
  - intros s. rewrite stale_iff. split.
    + intros (? & t & e & [= <-] & ? & ?). eauto.
    + intros (? & e & ? & ?). split; [done|]. eauto 6.
Qed.

(* ===================================================================== *)
(** ** The verify handler                                                 *)
(* ===================================================================== *)

(** The notification never throws and writes nothing but the trace. *)
Lemma notify_total rt session sandbox complaint (w : Js.World Store) :
  exists tr,
    Verify.notify rt session sandbox complaint w
    = (Js.Normal tt, {| Js.heap := Js.heap w; Js.ticks := Js.ticks w; Js.trace := tr |}).
Proof.
  unfold Verify.notify, Js.try_catch, Js.client_paymentReceived, Js.emit.
  destruct (Js.createMoneyDevKitClient rt (Js.trace w)); [by eexists|].
  destruct (Js.paymentReceived rt (Js.trace w) _); by eexists.
Qed.

Lemma optional_iso_pure d (w : Js.World Store) :
  exists c, Verify.optional_iso d w = (c, w).
Proof. destruct d as [[t|]|]; by eexists. Qed.

Ltac notify_step :=
  cbv beta;
  match goal with
  | |- context [Js.bind (Verify.notify ?a ?b ?c ?d) ?k ?w0] =>
      let tr := fresh "tr" in
      let Hn := fresh "Hn" in
      destruct (notify_total a b c d w0) as [tr Hn];
      rewrite (bind_run (Verify.notify a b c d) k w0 _ _ Hn); cbv beta
  end.

Ltac poll_step :=
  cbv beta;
  match goal with
  | |- context [Js.bind (Provider.checkInvoiceStatus ?rt ?url) ?k ?w0] =>
      let r := fresh "statusResult" in
      let Hp := fresh "Hpoll" in
      destruct (checkInvoiceStatus_total rt url w0) as [r Hp];
      rewrite (bind_run (Provider.checkInvoiceStatus rt url) k w0 _ _ Hp); cbv beta
  end.

(** The handler up to the poll, for a session that is neither paid nor
    past its expiry. *)
Ltac enter_handler Hs Hfresh :=
  unfold Verify.handleVerifyStatus;
  unfold Js.bind at 1, getSession, Js.gets; cbv iota beta; rewrite Hs;
  destruct (decide (_ = paid)) as [?|_]; [congruence|];
  unfold Js.bind at 1, isSessionExpired, Js.bind at 1, Js.new_Date, Js.ret at 1;
  cbv iota beta; unfold Js.getTime at 1; rewrite Hfresh.

Lemma mock_fallback_writes rt checkoutId session s (w : Js.World Store) :
  sessions (Js.heap w) !! checkoutId = Some s ->
  status s <> paid ->
  handler_writes checkoutId (Js.heap w)
    (Js.heap (Verify.mock_fallback rt checkoutId session w).2).
Proof.
  intros Hs Hnp. unfold Verify.mock_fallback.
  unfold Js.bind at 1.
  unfold shouldMockPaid, Js.bind at 1, Js.gets.
  destruct (bool_decide (is_Some (mockPaidTimestamps (Js.heap w) !! checkoutId))) eqn:Hm.
  - (* the marker is already there *)
    unfold Js.ret at 1. cbv iota beta.
    unfold Js.bind at 1, Js.emit at 1. cbv iota beta.
    unfold Js.bind at 1, Js.new_Date at 1. cbv iota beta.
    erewrite bind_run; [|by apply updateSessionStatus_hit].
    notify_step.
    simpl. right. eexists s, paid, _, _. split_and!; eauto.
  - unfold Js.bind at 1, Js.Date_now at 1. cbv iota beta.
    destruct (Js.num_gt _ _) eqn:Hgt.
    + (* twelve seconds have passed: the marker is written now *)
      unfold Js.bind at 1, Js.new_Date at 1. cbv iota beta.
      unfold Js.bind at 1, Js.modify at 1. cbv iota beta.
      unfold Js.ret at 1. cbv iota beta.
      unfold Js.bind at 1, Js.emit at 1. cbv iota beta.
      unfold Js.bind at 1, Js.new_Date at 1. cbv iota beta.
      erewrite bind_run; [|by apply updateSessionStatus_hit].
      notify_step.
      simpl. right. eexists s, paid, _, _. split_and!; eauto.
      right. eexists. split; [|done].
      apply bool_decide_eq_false in Hm. by apply eq_None_not_Some.
    + simpl. by left.
Qed.

Lemma handleVerifyStatus_writes rt checkoutId (w : Js.World Store) :
  handler_writes checkoutId (Js.heap w)
    (Js.heap (Verify.handleVerifyStatus rt checkoutId w).2).
Proof.
  unfold Verify.handleVerifyStatus.
  unfold Js.bind at 1, getSession, Js.gets. cbv iota beta.
  destruct (sessions (Js.heap w) !! checkoutId) as [session|] eqn:Hs; [|by left].
  destruct (decide (status session = paid)) as [Hp|Hp].
  - destruct (optional_iso_pure (paidAt session) w) as [[iso|e] Hiso].
    + erewrite bind_run by exact Hiso. by left.
    + erewrite bind_throw by exact Hiso. by left.
  - unfold Js.bind at 1, isSessionExpired, Js.bind at 1, Js.new_Date, Js.ret at 1.
    cbv iota beta.
    destruct (Js.num_gt _ _) eqn:Hexp.
    + erewrite bind_run; [|by apply updateSessionStatus_hit].
      simpl. right. eexists session, expired, _, None. split_and!; eauto. done.
    + poll_step.
      assert (handler_writes checkoutId (Js.heap w)
                (Js.heap (Verify.mock_fallback rt checkoutId session
                            (polled (verifyUrl session) (after_expiry_check w))).2))
        as Hmock.
      { by apply (mock_fallback_writes rt checkoutId session session
                    (polled (verifyUrl session) (after_expiry_check w))). }
      destruct statusResult as [data|err]; [|exact Hmock].
      destruct (Provider.status data); [exact Hmock| |].
      * destruct (Js.truthy (Provider.paidAt data)).
        -- unfold Js.bind at 1, Js.ret at 1. cbv iota beta.
           erewrite bind_run; [|by apply updateSessionStatus_hit].
           notify_step.
           destruct (Js.toISOString (Js.Date_of rt (Provider.paidAt data))) eqn:Hiso;
             unfold Js.bind, Js.lift; simpl;
             right; eexists session, paid, _, _; split_and!; eauto.
        -- unfold Js.bind at 1. cbv iota beta.
           erewrite bind_run; [|by apply updateSessionStatus_hit].
           notify_step. simpl.
           right; eexists session, paid, _, _; split_and!; eauto.
      * erewrite bind_run; [|by apply updateSessionStatus_hit].
        simpl. right. eexists session, expired, _, None. split_and!; eauto. done.
Qed.

Lemma handler_writes_marker checkoutId before after id :
  handler_writes checkoutId before after ->
  is_Some (mockPaidTimestamps before !! id) ->
  is_Some (mockPaidTimestamps after !! id).
Proof.
  intros [->|(s0 & st & now & paid_at & _ & _ & _ & _ & _ & Hm)] Hid; [done|].
  destruct Hm as [->|(stamp & Hnone & ->)]; [done|].
  destruct (decide (id = checkoutId)) as [->|Hne].
  - by rewrite lookup_insert_eq.
  - by rewrite lookup_insert_ne.
Qed.

(** C10 (amended).  [createSession] leaves the marker map as it is and
    stores the fresh session; if the identifier had a marker,
    [shouldMockPaid] on the fresh session answers true at once, whatever
    the creation time; and no call other than [deleteSession],
    [clearAllSessions] and [cleanupExpiredSessions] removes a marker. *)
Theorem createSession_keeps_markers rt (session : Omit.t) (w : Js.World Store) :
  let w1 := (createSession rt session w).2 in
  mockPaidTimestamps (Js.heap w1) = mockPaidTimestamps (Js.heap w)
  /\ sessions (Js.heap w1) !! Omit.checkoutId session
     = Some (fresh session (Some (Js.clock rt (Js.ticks w))))
  /\ (is_Some (mockPaidTimestamps (Js.heap w) !! Omit.checkoutId session) ->
      forall createdAt,
        shouldMockPaid rt (Omit.checkoutId session) createdAt w1 = (Js.Normal true, w1))
  /\ (forall c id,
        removes_markers c = false ->
        is_Some (mockPaidTimestamps (Js.heap w) !! id) ->
        is_Some (mockPaidTimestamps (Js.heap (Api.run rt c w)) !! id)).
Proof.
  cbv zeta. rewrite createSession_run. simpl. split_and!.
  - done.
  - by rewrite lookup_insert_eq.
  - intros Hsome createdAt. by apply shouldMockPaid_marked.
  - intros c id Hc Hid.
    destruct c as [s0|k|k st p|k| | |s0|k created| |k];
      try discriminate Hc; simpl; try done.
    + unfold updateSessionStatus, Js.bind, Js.gets.
      by destruct (sessions (Js.heap w) !! k).
    + unfold shouldMockPaid, Js.bind, Js.gets, Js.Date_now, Js.new_Date, Js.modify, Js.ret.
      destruct (bool_decide _); [done|]. simpl.
      destruct (Js.num_gt _ _); [|done]. simpl.
      destruct (decide (id = k)) as [->|Hne].
      * by rewrite lookup_insert_eq.
      * by rewrite lookup_insert_ne.
    + by apply (handler_writes_marker k _ _ id (handleVerifyStatus_writes rt k w)).
Qed.

Lemma createSession_keeps_markers_witness :
  shouldMockPaid Scenario.offline_after_13s "chk_1" (Some 13000%Z)
    (createSession Scenario.offline_after_13s Scenario.order
       (Verify.poll_all Scenario.offline_after_13s ["chk_1"]
          (Scenario.ordered Scenario.offline_after_13s))).2
  = (Js.Normal true,
     (createSession Scenario.offline_after_13s Scenario.order
        (Verify.poll_all Scenario.offline_after_13s ["chk_1"]
           (Scenario.ordered Scenario.offline_after_13s))).2).
Proof.
  apply (proj1 (proj2 (proj2
           (createSession_keeps_markers Scenario.offline_after_13s Scenario.order
              (Verify.poll_all Scenario.offline_after_13s ["chk_1"]
                 (Scenario.ordered Scenario.offline_after_13s)))))).
  vm_compute. eexists. reflexivity.
Defined.

(** C10, as stated, fails on its last clause: [cleanupExpiredSessions]
    is a third operation that removes markers. *)
Lemma cleanupExpiredSessions_removes_marker :
  Scenario.marked Scenario.expired_with_marker "chk_1" = true
  /\ (cleanupExpiredSessions Scenario.sweep_later Scenario.expired_with_marker).1
     = Js.Normal 1%nat
  /\ Scenario.marked
       (cleanupExpiredSessions Scenario.sweep_later Scenario.expired_with_marker).2
       "chk_1" = false.
Proof. split_and!; vm_compute; reflexivity. Qed.

(** *** The paid results *)

(** X3.  For a stored [paid] session whose [paidAt] is absent or a valid
    date, the handler returns the cached paid result (status [paid], the
    stored [paidAt], the session's sats) and leaves the whole world as
    it was: no poll, no clock reading, no write, no output. *)
Theorem paid_session_is_cached rt checkoutId (w : Js.World Store) session :
  sessions (Js.heap w) !! checkoutId = Some session ->
  status session = paid ->
  paidAt session <> Some None ->
  Verify.handleVerifyStatus rt checkoutId w = (Js.Normal (success (cached session)), w).
Proof.
  intros Hs Hp Hvalid. unfold Verify.handleVerifyStatus.
  unfold Js.bind at 1, getSession, Js.gets. cbv iota beta. rewrite Hs.
  destruct (decide (status session = paid)) as [_|]; [|done].
  unfold cached. by destruct (paidAt session) as [[t|]|].
Qed.

Lemma paid_session_is_cached_witness :
  Verify.handleVerifyStatus Scenario.upstream_paid_api_down "chk_1"
    (Verify.poll_all Scenario.upstream_paid_api_down ["chk_1"]
       (Scenario.ordered Scenario.upstream_paid_api_down))
  = (Js.Normal (success (cached
       (touched (fresh Scenario.order (Some 1000%Z)) paid (Some 1000%Z)
          (Some (Some 1714557600000%Z))))),
     Verify.poll_all Scenario.upstream_paid_api_down ["chk_1"]
       (Scenario.ordered Scenario.upstream_paid_api_down)).
Proof.
  apply (paid_session_is_cached Scenario.upstream_paid_api_down "chk_1"
           (Verify.poll_all Scenario.upstream_paid_api_down ["chk_1"]
              (Scenario.ordered Scenario.upstream_paid_api_down))
           (touched (fresh Scenario.order (Some 1000%Z)) paid (Some 1000%Z)
              (Some (Some 1714557600000%Z)))).
  - vm_compute. reflexivity.
  - reflexivity.
  - discriminate.
Defined.

(** C8 on a session that is [paid] with an Invalid Date as [paidAt]
    (what the handler itself stores when the provider's timestamp does
    not parse): the call throws a RangeError instead of returning the
    cached result; it still polls nothing and writes nothing. *)
Theorem cached_invalid_date_throws :
  Scenario.status_of
    (Verify.poll_all Scenario.upstream_paid_undated ["chk_1"]
       (Scenario.ordered Scenario.upstream_paid_undated)) "chk_1" = Some paid
  /\ Verify.handleVerifyStatus Scenario.upstream_paid_undated "chk_1"
       (Verify.poll_all Scenario.upstream_paid_undated ["chk_1"]
          (Scenario.ordered Scenario.upstream_paid_undated))
     = (Js.Throw (Js.RangeError "Invalid time value"),
        Verify.poll_all Scenario.upstream_paid_undated ["chk_1"]
          (Scenario.ordered Scenario.upstream_paid_undated)).
Proof. split; vm_compute; reflexivity. Qed.

(** X1.  For a pending session not past its expiry whose poll says [paid],
    with a timestamp that is absent or a valid date, the handler stores
    the session as [paid] with that [paidAt] and returns the paid
    result, whatever the settlement API client does (the runtime is
    arbitrary: its client may throw on creation or on the call). *)
Theorem poll_paid_survives_notification rt checkoutId (w : Js.World Store)
    session data t :
  sessions (Js.heap w) !! checkoutId = Some session ->
  status session = pending ->
  Js.num_gt (Some (Js.clock rt (Js.ticks w))) (Js.getTime (expiresAt session)) = false ->
  (Provider.checkInvoiceStatus rt (verifyUrl session) (after_expiry_check w)).1
  = Js.Normal (success data) ->
  Provider.status data = paid ->
  (if Js.truthy (Provider.paidAt data) then Js.Date_of rt (Provider.paidAt data)
   else Some (Js.clock rt (S (Js.ticks w)))) = Some t ->
  exists w' now,
    Verify.handleVerifyStatus rt checkoutId w
    = (Js.Normal (success (paid_result t session)), w')
    /\ sessions (Js.heap w') !! checkoutId
       = Some (touched session paid now (Some (Some t))).
Proof.
  intros Hs Hpending Hfresh Hanswer Hpaid Ht.
  enter_handler Hs Hfresh.
  poll_step. fold (after_expiry_check w) in Hpoll.
  rewrite Hpoll in Hanswer. injection Hanswer as ->. rewrite Hpaid.
  destruct (Js.truthy (Provider.paidAt data)).
  - unfold Js.bind at 1, Js.ret at 1. cbv iota beta. rewrite Ht.
    erewrite bind_run; [|by apply updateSessionStatus_hit].
    notify_step. unfold Js.bind, Js.lift, Js.ret. simpl.
    do 2 eexists. split; [reflexivity|]. simpl. by rewrite lookup_insert_eq.
  - unfold Js.bind at 1. cbv iota beta. simpl Js.ticks. rewrite Ht.
    erewrite bind_run; [|by apply updateSessionStatus_hit].
    notify_step. unfold Js.bind, Js.lift, Js.ret. simpl.
    do 2 eexists. split; [reflexivity|]. simpl. by rewrite lookup_insert_eq.
Qed.

Lemma poll_paid_survives_notification_witness :
  exists w' now,
    Verify.handleVerifyStatus Scenario.upstream_paid_api_down "chk_1"
      (Scenario.ordered Scenario.upstream_paid_api_down)
    = (Js.Normal (success (paid_result 1714557600000%Z
                             (fresh Scenario.order (Some 1000%Z)))), w')
    /\ sessions (Js.heap w') !! "chk_1"
       = Some (touched (fresh Scenario.order (Some 1000%Z)) paid now
                 (Some (Some 1714557600000%Z))).
Proof.
  apply (poll_paid_survives_notification Scenario.upstream_paid_api_down "chk_1"
           (Scenario.ordered Scenario.upstream_paid_api_down)
           (fresh Scenario.order (Some 1000%Z))
           {| Provider.status := paid;
              Provider.paidAt := Js.JStr "2024-05-01T10:00:00.000Z";
              Provider.eurCredited := Js.JUndefined |}
           1714557600000%Z);
    vm_compute; reflexivity.
Defined.

(** C3 on a provider timestamp that does not parse: the session is
    stored as [paid] (with an Invalid Date) and the notification is
    sent, but the call then throws a RangeError instead of returning
    the paid result. *)
Theorem unparsed_paidAt_throws_after_storing :
  (Verify.handleVerifyStatus Scenario.upstream_paid_undated "chk_1"
     (Scenario.ordered Scenario.upstream_paid_undated)).1
  = Js.Throw (Js.RangeError "Invalid time value")
  /\ (sessions (Js.heap (Verify.handleVerifyStatus Scenario.upstream_paid_undated "chk_1"
                           (Scenario.ordered Scenario.upstream_paid_undated)).2)
        !! "chk_1")
     = Some (touched (fresh Scenario.order (Some 1000%Z)) paid (Some 1000%Z) (Some None)).
Proof. split; vm_compute; reflexivity. Qed.

(** X2.  For a pending session not past its expiry whose poll failed or said
    [pending], once a mock marker exists or more than 12,000 ms have
    passed since creation, the handler stores the session as [paid]
    with a [paidAt], keeps a marker and returns the paid result,
    whatever the settlement API client does. *)
Theorem mock_paid_survives_notification rt checkoutId (w : Js.World Store)
    session created answer :
  sessions (Js.heap w) !! checkoutId = Some session ->
  status session = pending ->
  Js.num_gt (Some (Js.clock rt (Js.ticks w))) (Js.getTime (expiresAt session)) = false ->
  (Provider.checkInvoiceStatus rt (verifyUrl session) (after_expiry_check w)).1
  = Js.Normal answer ->
  inconclusive answer = true ->
  createdAt session = Some created ->
  is_Some (mockPaidTimestamps (Js.heap w) !! checkoutId)
  \/ (12000 < Js.clock rt (S (Js.ticks w)) - created)%Z ->
  exists w' now t,
    Verify.handleVerifyStatus rt checkoutId w
    = (Js.Normal (success (paid_result t session)), w')
    /\ sessions (Js.heap w') !! checkoutId
       = Some (touched session paid now (Some (Some t)))
    /\ is_Some (mockPaidTimestamps (Js.heap w') !! checkoutId).
Proof.
  intros Hs Hpending Hfresh Hanswer Hinc Hcreated Hmock.
  enter_handler Hs Hfresh.
  poll_step. fold (after_expiry_check w) in Hpoll.
  rewrite Hpoll in Hanswer. injection Hanswer as ->.
  assert (exists w' now t,
    Verify.mock_fallback rt checkoutId session
      (polled (verifyUrl session) (after_expiry_check w))
    = (Js.Normal (success (paid_result t session)), w')
    /\ sessions (Js.heap w') !! checkoutId = Some (touched session paid now (Some (Some t)))
    /\ is_Some (mockPaidTimestamps (Js.heap w') !! checkoutId)) as Hfall.
  { unfold Verify.mock_fallback.
    unfold Js.bind at 1.
    unfold shouldMockPaid, Js.bind at 1, Js.gets.
    destruct (bool_decide (is_Some (mockPaidTimestamps
               (Js.heap (polled (verifyUrl session) (after_expiry_check w))) !! checkoutId)))
      eqn:Hm.
    - unfold Js.ret at 1. cbv iota beta.
      unfold Js.bind at 1, Js.emit at 1. cbv iota beta.
      unfold Js.bind at 1, Js.new_Date at 1. cbv iota beta.
      erewrite bind_run; [|by apply updateSessionStatus_hit].
      notify_step. unfold Js.bind, Js.lift, Js.ret. simpl.
      do 3 eexists. split; [reflexivity|]. simpl. rewrite lookup_insert_eq.
      split; [done|]. by apply bool_decide_eq_true in Hm.
    - destruct Hmock as [Hsome|Hlate].
      { apply bool_decide_eq_false in Hm. by destruct Hm. }
      unfold Js.bind at 1, Js.Date_now at 1. cbv iota beta.
      rewrite Hcreated. unfold polled, after_expiry_check.
      cbn [Js.ticks Js.heap Js.trace].
      unfold Js.num_gt, Js.num_sub, Js.getTime.
      rewrite (proj2 (Z.ltb_lt _ _)) by lia.
      unfold Js.bind at 1, Js.new_Date at 1. cbv iota beta.
      unfold Js.bind at 1, Js.modify at 1. cbv iota beta.
      unfold Js.ret at 1. cbv iota beta.
      unfold Js.bind at 1, Js.emit at 1. cbv iota beta.
      unfold Js.bind at 1, Js.new_Date at 1. cbv iota beta.
      erewrite bind_run; [|by apply updateSessionStatus_hit].
      notify_step. unfold Js.bind, Js.lift, Js.ret. simpl.
      do 3 eexists. split; [reflexivity|]. simpl. by rewrite !lookup_insert_eq. }
  destruct answer as [data|err]; [|exact Hfall].
  simpl in Hinc. apply bool_decide_eq_true in Hinc. rewrite Hinc. exact Hfall.
Qed.

Lemma mock_paid_survives_notification_witness :
  exists w' now t,
    Verify.handleVerifyStatus Scenario.offline_after_13s "chk_1"
      (Scenario.ordered Scenario.offline_after_13s)
    = (Js.Normal (success (paid_result t (fresh Scenario.order (Some 0%Z)))), w')
    /\ sessions (Js.heap w') !! "chk_1"
       = Some (touched (fresh Scenario.order (Some 0%Z)) paid now (Some (Some t)))
    /\ is_Some (mockPaidTimestamps (Js.heap w') !! "chk_1").
Proof.
  apply (mock_paid_survives_notification Scenario.offline_after_13s "chk_1"
           (Scenario.ordered Scenario.offline_after_13s)
           (fresh Scenario.order (Some 0%Z)) 0%Z (success still_pending)).
  - vm_compute. reflexivity.
  - reflexivity.
  - vm_compute. reflexivity.
  - vm_compute. reflexivity.
  - vm_compute. reflexivity.
  - reflexivity.
  - right. vm_compute. reflexivity.
Defined.

(** X4.  A session that is [expired] and past its expiry timestamp when the
    handler reads the clock stays [expired]: the call ends at the expiry
    check, before any poll. *)
Theorem expired_stays_after_expiry rt checkoutId (w : Js.World Store) session :
  sessions (Js.heap w) !! checkoutId = Some session ->
  status session = expired ->
  Js.num_gt (Some (Js.clock rt (Js.ticks w))) (Js.getTime (expiresAt session)) = true ->
  exists w',
    Verify.handleVerifyStatus rt checkoutId w
    = (Js.Normal (success {| Verify.status := expired; Verify.paidAt := None;
                             Verify.amountSatsReceived := None |}), w')
    /\ sessions (Js.heap w') !! checkoutId
       = Some (touched session expired (Some (Js.clock rt (S (Js.ticks w)))) None)
    /\ Js.trace w' = Js.trace w.
Proof.
  intros Hs Hexpired Hpast.
  enter_handler Hs Hpast.
  erewrite bind_run; [|by apply updateSessionStatus_hit].
  eexists. split; [reflexivity|]. simpl. by rewrite lookup_insert_eq.
Qed.

Lemma expired_stays_after_expiry_witness :
  exists w',
    Verify.handleVerifyStatus Scenario.polled_after_expiry "chk_1"
      (Verify.poll_all Scenario.polled_after_expiry ["chk_1"]
         (Scenario.ordered Scenario.polled_after_expiry))
    = (Js.Normal (success {| Verify.status := expired; Verify.paidAt := None;
                             Verify.amountSatsReceived := None |}), w')
    /\ sessions (Js.heap w') !! "chk_1"
       = Some (touched
                 (touched (fresh Scenario.order (Some 0%Z)) expired (Some 1000000%Z) None)
                 expired
                 (Some (Js.clock Scenario.polled_after_expiry
                          (S (Js.ticks (Verify.poll_all Scenario.polled_after_expiry ["chk_1"]
                                          (Scenario.ordered Scenario.polled_after_expiry))))))
                 None)
    /\ Js.trace w'
       = Js.trace (Verify.poll_all Scenario.polled_after_expiry ["chk_1"]
                     (Scenario.ordered Scenario.polled_after_expiry)).
Proof.
  apply (expired_stays_after_expiry Scenario.polled_after_expiry "chk_1"
           (Verify.poll_all Scenario.polled_after_expiry ["chk_1"]
              (Scenario.ordered Scenario.polled_after_expiry))
           (touched (fresh Scenario.order (Some 0%Z)) expired (Some 1000000%Z) None));
    vm_compute; reflexivity.
Defined.

(* ===================================================================== *)
(** ** The session store: reads, writes and the sweep                    *)
(* ===================================================================== *)

(** X5.  [getSession] after [createSession]: the identifier just created
    reads back the session that was passed, with status [pending] and
    the clock reading of the call as [createdAt], whatever was stored
    under it before; every other identifier reads what it read before. *)
Theorem createSession_then_getSession rt (session : Omit.t) (w : Js.World Store) id :
  (getSession id (createSession rt session w).2).1
  = Js.Normal (if decide (id = Omit.checkoutId session)
               then Some (fresh session (Some (Js.clock rt (Js.ticks w))))
               else sessions (Js.heap w) !! id)
  /\ status (fresh session (Some (Js.clock rt (Js.ticks w)))) = pending
  /\ createdAt (fresh session (Some (Js.clock rt (Js.ticks w)))) = Some (Js.clock rt (Js.ticks w)).
Proof.
  rewrite createSession_run. unfold getSession, Js.gets. simpl.
  split; [|done]. f_equal.
  destruct (decide (id = Omit.checkoutId session)) as [->|Hne].
  - by rewrite lookup_insert_eq.
  - by rewrite lookup_insert_ne.
Qed.

(** X6.  [updateSessionStatus] never throws, writes nothing outside the
    process and leaves the markers alone.  On an identifier that is not
    in the store it does nothing at all (no clock reading either); on a
    stored one it sets the status, sets [lastCheckedAt] to the clock
    reading, sets [paidAt] only when one is passed, and leaves every
    other field and every other session as it was. *)
Theorem updateSessionStatus_effect rt key st paid_at (w : Js.World Store) :
  let w' := (updateSessionStatus rt key st paid_at w).2 in
  (updateSessionStatus rt key st paid_at w).1 = Js.Normal tt
  /\ mockPaidTimestamps (Js.heap w') = mockPaidTimestamps (Js.heap w)
  /\ Js.trace w' = Js.trace w
  /\ (sessions (Js.heap w) !! key = None -> w' = w)
  /\ (forall id, id <> key ->
        sessions (Js.heap w') !! id = sessions (Js.heap w) !! id)
  /\ (forall s, sessions (Js.heap w) !! key = Some s ->
        exists s',
          sessions (Js.heap w') !! key = Some s'
          /\ status s' = st
          /\ lastCheckedAt s' = Some (Some (Js.clock rt (Js.ticks w)))
          /\ paidAt s' = match paid_at with Some d => Some d | None => paidAt s end
          /\ (checkoutId s', lnAddress s', eurAmount s', sats s', msats s', bolt11 s',
              verifyUrl s', paymentHash s', createdAt s', expiresAt s')
             = (checkoutId s, lnAddress s, eurAmount s, sats s, msats s, bolt11 s,
                verifyUrl s, paymentHash s, createdAt s, expiresAt s)).
Proof.
  cbv zeta. unfold updateSessionStatus, Js.bind, Js.gets, Js.new_Date, Js.modify, Js.ret.
  destruct (sessions (Js.heap w) !! key) as [s|] eqn:Hs; simpl.
  - split_and!; try done.
    + intros id Hne. by rewrite lookup_insert_ne.
    + intros s0 [= <-]. rewrite lookup_insert_eq. eexists. split; [done|]. done.
  - split_and!; done.
Qed.

(** X7.  [deleteSession] removes the session and the marker of its
    identifier and nothing else; deleting twice is deleting once, and
    deleting an identifier that has neither leaves the store as it was. *)
Theorem deleteSession_effect id (w : Js.World Store) :
  let w' := (deleteSession id w).2 in
  sessions (Js.heap w') !! id = None
  /\ mockPaidTimestamps (Js.heap w') !! id = None
  /\ (forall id', id' <> id ->
        sessions (Js.heap w') !! id' = sessions (Js.heap w) !! id'
        /\ mockPaidTimestamps (Js.heap w') !! id'
           = mockPaidTimestamps (Js.heap w) !! id')
  /\ (deleteSession id w').2 = w'
  /\ (sessions (Js.heap w) !! id = None ->
      mockPaidTimestamps (Js.heap w) !! id = None ->
      Js.heap w' = Js.heap w).
Proof.
  cbv zeta. unfold deleteSession, Js.modify. simpl. split_and!.
  - by rewrite lookup_delete_eq.
  - by rewrite lookup_delete_eq.
  - intros id' Hne. by rewrite !lookup_delete_ne.
  - by rewrite !delete_delete_eq.
  - intros Hs Hm. destruct (Js.heap w) as [ss ms]. simpl in *.
    by rewrite !delete_id.
Qed.

(** The sweep in closed form: both maps filtered. *)
Lemma cleanup_run rt (w : Js.World Store) :
  let now := Some (Js.clock rt (Js.ticks w)) in
  cleanupExpiredSessions rt w
  = (Js.Normal (size (filter (stale_entry now) (sessions (Js.heap w)))),
     {| Js.heap :=
          {| sessions := filter (kept now) (sessions (Js.heap w));
             mockPaidTimestamps :=
               filter (marker_kept now (sessions (Js.heap w)))
                 (mockPaidTimestamps (Js.heap w)) |};
        Js.ticks := S (Js.ticks w);
        Js.trace := Js.trace w |}).
Proof.
  cbv zeta.
  unfold cleanupExpiredSessions, Js.bind, Js.new_Date, Js.gets, Js.modify, Js.ret. simpl.
  destruct (sweep_fold (Some (Js.clock rt (Js.ticks w))) (Js.heap w) (sessions (Js.heap w)))
    as (Hs & Hm & Hn).
  rewrite Hn. f_equal. f_equal.
  destruct (map_fold _ _ _).1 as [ss ms] eqn:E. simpl in *. f_equal.
  - apply map_eq. intros id. rewrite Hs.
    destruct (sessions (Js.heap w) !! id) as [s|] eqn:Hid.
    + destruct (stale _ s) eqn:Hst; symmetry.
      * apply map_lookup_filter_None. right. intros s' Hs'. unfold kept. simpl. congruence.
      * apply map_lookup_filter_Some. by split.
    + symmetry. apply map_lookup_filter_None. by left.
  - apply map_eq. intros id. rewrite Hm.
    destruct (mockPaidTimestamps (Js.heap w) !! id) as [d|] eqn:Hd.
    + destruct (sessions (Js.heap w) !! id) as [s|] eqn:Hid.
      * destruct (stale _ s) eqn:Hst; symmetry.
        -- apply map_lookup_filter_None. right. intros d' Hd'.
           unfold marker_kept. simpl. rewrite Hid. congruence.
        -- apply map_lookup_filter_Some. split; [done|].
           unfold marker_kept. simpl. by rewrite Hid.
      * symmetry. apply map_lookup_filter_Some. split; [done|].
        unfold marker_kept. simpl. by rewrite Hid.
    + transitivity (@None Js.Date).
      * by destruct (sessions (Js.heap w) !! id) as [s|]; [destruct (stale _ s)|].
      * symmetry. apply map_lookup_filter_None. by left.
Qed.

(** Every entry is swept or kept. *)
Lemma stale_kept_partition now (m : gmap string BringinCheckoutSession) :
  size m = (size (filter (stale_entry now) m) + size (filter (kept now) m))%nat.
Proof.
  rewrite <- (map_filter_union_complement (stale_entry now) m) at 1.
  rewrite map_size_disj_union by apply map_disjoint_filter_complement.
  f_equal. f_equal. apply map_filter_ext. intros i x _.
  unfold stale_entry, kept. simpl. by destruct (stale now x).
Qed.

(** X8.  The number [cleanupExpiredSessions] returns is the number of
    sessions that left the store; a session it removes is marked
    [expired] and is one [isSessionExpired] reports expired at that
    clock reading; and a second sweep at the same clock reading removes
    nothing and returns 0. *)
Theorem cleanupExpiredSessions_twice rt (w : Js.World Store) :
  let w' := (cleanupExpiredSessions rt w).2 in
  (exists n, (cleanupExpiredSessions rt w).1 = Js.Normal n
             /\ size (sessions (Js.heap w)) = (n + size (sessions (Js.heap w')))%nat)
  /\ (forall id s, sessions (Js.heap w) !! id = Some s ->
        sessions (Js.heap w') !! id = None ->
        status s = expired /\ (isSessionExpired rt s w).1 = Js.Normal true)
  /\ (Js.clock rt (S (Js.ticks w)) = Js.clock rt (Js.ticks w) ->
      cleanupExpiredSessions rt w'
      = (Js.Normal O,
         {| Js.heap := Js.heap w'; Js.ticks := S (Js.ticks w'); Js.trace := Js.trace w' |})).
Proof.
  cbv zeta. rewrite (cleanup_run rt w). cbv zeta. simpl. split_and!.
  - eexists. split; [done|]. apply stale_kept_partition.
  - intros id s Hs Hgone. apply map_lookup_filter_None in Hgone as [Hgone|Hgone]; [congruence|].
    specialize (Hgone s Hs). unfold kept in Hgone. simpl in Hgone.
    apply not_false_is_true in Hgone. apply stale_iff in Hgone as (He & t & e & [= <-] & Hx & Hlt).
    split; [done|]. unfold isSessionExpired, Js.bind, Js.new_Date, Js.ret. simpl.
    rewrite Hx. simpl. f_equal. apply Z.ltb_lt. lia.
  - intros Hclock. rewrite cleanup_run. cbv zeta. simpl. rewrite Hclock.
    set (now := Some (Js.clock rt (Js.ticks w))).
    assert (filter (stale_entry now) (filter (kept now) (sessions (Js.heap w))) = ∅) as ->.
    { apply map_empty. intros i. apply map_lookup_filter_None. right.
      intros x Hx. apply map_lookup_filter_Some in Hx as [_ Hk].
      unfold kept, stale_entry in *. simpl in *. congruence. }
    rewrite map_size_empty. f_equal. f_equal. f_equal.
    + apply map_filter_id. intros i x Hx.
      by apply map_lookup_filter_Some in Hx as [_ Hk].
    + apply map_filter_id. intros i d Hd. unfold marker_kept. simpl.
      destruct (filter (kept now) (sessions (Js.heap w)) !! i) as [s|] eqn:Hs; [|done].
      by apply map_lookup_filter_Some in Hs as [_ Hk].
Qed.

(** X9.  [getAllSessions] changes nothing and lists the store: as many
    sessions as there are identifiers, and exactly those [getSession]
    finds under some identifier. *)
Theorem getAllSessions_lists_store (w : Js.World Store) :
  exists l,
    getAllSessions w = (Js.Normal l, w)
    /\ length l = size (sessions (Js.heap w))
    /\ forall s, s ∈ l <-> exists id, (getSession id w).1 = Js.Normal (Some s).
Proof.
  unfold getAllSessions, getSession, Js.gets. eexists. split; [reflexivity|]. split.
  - by rewrite length_fmap, length_map_to_list.
  - intros s. rewrite list_elem_of_fmap. split.
    + intros ([id s'] & -> & Hin). apply elem_of_map_to_list in Hin.
      exists id. simpl. by rewrite Hin.
    + intros (id & Hid). simpl in Hid. exists (id, s). split; [done|].
      apply elem_of_map_to_list. congruence.
Qed.

(** X10.  After [clearAllSessions] the list of sessions is empty, the
    handler answers [session_not_found] for every identifier without
    touching anything, and the mock markers are forgotten:
    [shouldMockPaid] answers false again within 12,000 ms of the
    creation time it is given. *)
Theorem clearAllSessions_forgets rt (w : Js.World Store) :
  let w' := (clearAllSessions w).2 in
  (getAllSessions w').1 = Js.Normal []
  /\ (forall id, Verify.handleVerifyStatus rt id w' = (Js.Normal (not_found id), w'))
  /\ (forall id created,
        (Js.clock rt (Js.ticks w) - created <= 12000)%Z ->
        (shouldMockPaid rt id (Some created) w').1 = Js.Normal false).
Proof.
  cbv zeta. unfold clearAllSessions, Js.modify. cbn [snd]. split_and!.
  - unfold getAllSessions, Js.gets. cbn. by rewrite map_to_list_empty.
  - intros id. unfold Verify.handleVerifyStatus, getSession, Js.bind, Js.gets, Js.ret.
    cbn [Js.heap sessions]. by rewrite lookup_empty.
  - intros id created Hle.
    unfold shouldMockPaid, Js.bind, Js.gets, Js.Date_now, Js.ret. cbn [Js.heap mockPaidTimestamps].
    rewrite lookup_empty. rewrite bool_decide_eq_false_2 by (by intros [? ?]).
    cbn [Js.ticks Js.num_sub Js.getTime Js.num_gt].
    destruct (Z.ltb_spec 12000 (Js.clock rt (Js.ticks w) - created)); [lia|done].
Qed.

(** What the handler writes keeps sessions under their identifiers. *)
Lemma handler_writes_keyed id before after :
  handler_writes id before after -> keyed before -> keyed after.
Proof.
  intros [->|(s0 & st & now & p & Hs0 & _ & _ & _ & Hafter & _)] Hk; [done|].
  intros id' s. rewrite Hafter. destruct (decide (id' = id)) as [->|Hne].
  - rewrite lookup_insert_eq. intros [= <-]. simpl. by apply Hk.
  - rewrite lookup_insert_ne by done. apply Hk.
Qed.

Lemma run_keyed rt c (w : Js.World Store) :
  keyed (Js.heap w) -> keyed (Js.heap (Api.run rt c w)).
Proof.
  intros Hk.
  destruct c as [s0|k|k st p|k| | |s0|k created| |k]; cbn [Api.run].
  - rewrite createSession_run. intros id s. simpl.
    destruct (decide (id = Omit.checkoutId s0)) as [->|Hne].
    + rewrite lookup_insert_eq. by intros [= <-].
    + rewrite lookup_insert_ne by done. apply Hk.
  - done.
  - unfold updateSessionStatus, Js.bind, Js.gets.
    destruct (sessions (Js.heap w) !! k) as [s1|] eqn:Hs1; [|done].
    intros id s. simpl. destruct (decide (id = k)) as [->|Hne].
    + rewrite lookup_insert_eq. intros [= <-]. simpl. by apply Hk.
    + rewrite lookup_insert_ne by done. apply Hk.
  - intros id s Hs. simpl in Hs. apply lookup_delete_Some in Hs as [_ Hs]. by apply Hk.
  - intros id s Hs. simpl in Hs. by rewrite lookup_empty in Hs.
  - done.
  - done.
  - unfold shouldMockPaid, Js.bind, Js.gets, Js.Date_now, Js.new_Date, Js.modify, Js.ret.
    destruct (bool_decide _); [done|]. simpl. by destruct (Js.num_gt _ _).
  - rewrite cleanup_run. cbv zeta. intros id s Hs. simpl in Hs.
    apply map_lookup_filter_Some in Hs as [Hs _]. by apply Hk.
  - by apply (handler_writes_keyed k _ _ (handleVerifyStatus_writes rt k w)).
Qed.

(** X11.  Whatever calls are made, in whatever order, every stored
    session keeps sitting under its own [checkoutId]: what [getSession]
    returns for an identifier carries that identifier. *)
Theorem keyed_invariant rt cs (w : Js.World Store) :
  keyed (Js.heap w) -> keyed (Js.heap (Api.run_all rt cs w)).
Proof.
  revert w. induction cs as [|c cs IH]; intros w Hk; simpl; [done|].
  apply IH. by apply run_keyed.
Qed.

Lemma keyed_invariant_witness :
  keyed (Js.heap (Api.run_all Scenario.sweep_later
                    [Api.CreateSession Scenario.order;
                     Api.HandleVerifyStatus "chk_1";
                     Api.CleanupExpiredSessions]
                    Scenario.boot)).
Proof.
  apply (keyed_invariant Scenario.sweep_later
           [Api.CreateSession Scenario.order;
            Api.HandleVerifyStatus "chk_1";
            Api.CleanupExpiredSessions]
           Scenario.boot).
  intros id s Hs. vm_compute in Hs. discriminate Hs.
Defined.

(** What the handler writes keeps paid and expired sessions stamped. *)
Lemma handler_writes_stamped id before after :
  handler_writes id before after -> stamped before -> stamped after.
Proof.
  intros [->|(s0 & st & now & p & Hs0 & _ & _ & Hp & Hafter & _)] Hk; [done|].
  intros id' s. rewrite Hafter. destruct (decide (id' = id)) as [->|Hne].
  - rewrite lookup_insert_eq. intros [= <-]. simpl. split.
    + intros Hst. split; [|done]. destruct (Hp Hst) as [d ->]. done.
    + done.
  - rewrite lookup_insert_ne by done. apply Hk.
Qed.

Lemma run_stamped rt c (w : Js.World Store) :
  is_update c = false ->
  stamped (Js.heap w) -> stamped (Js.heap (Api.run rt c w)).
Proof.
  intros Hc Hk.
  destruct c as [s0|k|k st p|k| | |s0|k created| |k]; try discriminate Hc;
    cbn [Api.run].
  - rewrite createSession_run. intros id s. simpl.
    destruct (decide (id = Omit.checkoutId s0)) as [->|Hne].
    + rewrite lookup_insert_eq. intros [= <-]. simpl. done.
    + rewrite lookup_insert_ne by done. apply Hk.
  - done.
  - intros id s Hs. simpl in Hs. apply lookup_delete_Some in Hs as [_ Hs]. by apply (Hk id).
  - intros id s Hs. simpl in Hs. by rewrite lookup_empty in Hs.
  - done.
  - done.
  - unfold shouldMockPaid, Js.bind, Js.gets, Js.Date_now, Js.new_Date, Js.modify, Js.ret.
    destruct (bool_decide _); [done|]. simpl. by destruct (Js.num_gt _ _).
  - rewrite cleanup_run. cbv zeta. intros id s Hs. simpl in Hs.
    apply map_lookup_filter_Some in Hs as [Hs _]. by apply (Hk id).
  - by apply (handler_writes_stamped k _ _ (handleVerifyStatus_writes rt k w)).
Qed.

(** X12.  As long as [updateSessionStatus] is called by the handler
    only, every session stored as [paid] has a [paidAt] and a
    [lastCheckedAt], and every session stored as [expired] has a
    [lastCheckedAt], whatever other calls are made. *)
Theorem stamped_invariant rt cs (w : Js.World Store) :
  forallb (fun c => negb (is_update c)) cs = true ->
  stamped (Js.heap w) -> stamped (Js.heap (Api.run_all rt cs w)).
Proof.
  revert w. induction cs as [|c cs IH]; intros w Hcs Hk; simpl; [done|].
  simpl in Hcs. apply andb_true_iff in Hcs as [Hc Hcs].
  apply IH; [done|]. apply run_stamped; [|done]. by apply negb_true_iff.
Qed.

Lemma stamped_invariant_witness :
  stamped (Js.heap (Api.run_all Scenario.sweep_later
                      [Api.CreateSession Scenario.order;
                       Api.HandleVerifyStatus "chk_1";
                       Api.CleanupExpiredSessions]
                      Scenario.boot)).
Proof.
  apply (stamped_invariant Scenario.sweep_later
           [Api.CreateSession Scenario.order;
            Api.HandleVerifyStatus "chk_1";
            Api.CleanupExpiredSessions]
           Scenario.boot).
  - reflexivity.
  - intros id s Hs. vm_compute in Hs. discriminate Hs.
Defined.

(* ===================================================================== *)
(** ** The verify handler: results, requests and frame                   *)
(* ===================================================================== *)

(** The notification adds to the trace at most one request to the
    settlement API, for the payment of the session, and no poll. *)
Lemma notify_trace rt s sandbox complaint (w : Js.World Store) :
  exists ev,
    Verify.notify rt s sandbox complaint w
    = (Js.Normal tt, {| Js.heap := Js.heap w; Js.ticks := Js.ticks w;
                        Js.trace := (ev ++ Js.trace w)%list |})
    /\ polls ev = O
    /\ (notifications ev <= 1)%nat
    /\ (forall ps, Js.PaymentReceived ps ∈ ev -> ps = [payment_of s sandbox]).
Proof.
  unfold Verify.notify, Js.try_catch, Js.client_paymentReceived, Js.emit.
  destruct (Js.createMoneyDevKitClient rt (Js.trace w)) as [e|].
  - exists [Js.ConsoleError complaint e]. split_and!; [done|done|unfold notifications; simpl; lia|].
    intros ps Hps. apply list_elem_of_singleton in Hps. discriminate.
  - destruct (Js.paymentReceived rt (Js.trace w) _) as [e|]; simpl.
    + exists [Js.ConsoleError complaint e; Js.PaymentReceived [payment_of s sandbox]].
      split_and!; [done|done|unfold notifications; simpl; lia|].
      intros ps Hps. apply elem_of_cons in Hps as [Hps|Hps]; [discriminate|].
      apply list_elem_of_singleton in Hps. by injection Hps as ->.
    + exists [Js.PaymentReceived [payment_of s sandbox]].
      split_and!; [done|done|unfold notifications; simpl; lia|].
      intros ps Hps. apply list_elem_of_singleton in Hps. by injection Hps as ->.
Qed.

(** The two ways through the mock fallback. *)
Lemma mock_fallback_cases rt id s (w : Js.World Store) c w' :
  sessions (Js.heap w) !! id = Some s ->
  Verify.mock_fallback rt id s w = (c, w') ->
  (mock_due rt w id s = false
   /\ c = Js.Normal (success (plain_response pending))
   /\ Js.heap w' = Js.heap w /\ Js.trace w' = Js.trace w)
  \/ (mock_due rt w id s = true
      /\ exists ev now t,
        Js.trace w' = (ev ++ Js.trace w)%list
        /\ polls ev = O /\ (notifications ev <= 1)%nat
        /\ (forall ps, Js.PaymentReceived ps ∈ ev -> ps = [payment_of s true])
        /\ sessions (Js.heap w')
           = <[id := touched s paid now (Some (Some t))]> (sessions (Js.heap w))
        /\ marker_step id (mockPaidTimestamps (Js.heap w)) (mockPaidTimestamps (Js.heap w'))
        /\ is_Some (mockPaidTimestamps (Js.heap w') !! id)
        /\ c = Js.Normal (success (paid_result t s))).
Proof.
  intros Hs. unfold mock_due. unfold Verify.mock_fallback.
  unfold Js.bind at 1.
  unfold shouldMockPaid, Js.bind at 1, Js.gets.
  destruct (bool_decide (is_Some (mockPaidTimestamps (Js.heap w) !! id))) eqn:Hm.
  - unfold Js.ret at 1. cbv iota beta.
    unfold Js.bind at 1, Js.emit at 1. cbv iota beta.
    unfold Js.bind at 1, Js.new_Date at 1. cbv iota beta.
    erewrite bind_run; [|by apply updateSessionStatus_hit].
    cbv beta.
    match goal with
    | |- context [Js.bind (Verify.notify ?a ?b ?c ?d) ?k ?w0] =>
        destruct (notify_trace a b c d w0) as (ev & Hn & Hp & Hc & Hpay);
        rewrite (bind_run (Verify.notify a b c d) k w0 _ _ Hn); cbv beta
    end.
    unfold Js.bind, Js.lift, Js.ret. simpl. intros [= <- <-]. right. split; [done|].
    exists (ev ++ [Js.ConsoleLog ("[Bringin Demo] Mock payment confirmed for checkout: " ++ id)])%list.
    do 2 eexists. simpl. split_and!.
    + by rewrite <- app_assoc.
    + unfold polls in *. rewrite List.filter_app, length_app, Hp. done.
    + unfold notifications in *. rewrite List.filter_app, length_app. simpl. lia.
    + intros ps Hps. apply elem_of_app in Hps as [Hps|Hps]; [by apply Hpay|].
      apply list_elem_of_singleton in Hps. discriminate.
    + done.
    + by left.
    + rewrite bool_decide_eq_true in Hm. done.
    + done.
  - unfold Js.bind at 1, Js.Date_now at 1. cbv iota beta. simpl orb.
    destruct (Js.num_gt _ _) eqn:Hgt.
    + unfold Js.bind at 1, Js.new_Date at 1. cbv iota beta.
      unfold Js.bind at 1, Js.modify at 1. cbv iota beta.
      unfold Js.ret at 1. cbv iota beta.
      unfold Js.bind at 1, Js.emit at 1. cbv iota beta.
      unfold Js.bind at 1, Js.new_Date at 1. cbv iota beta.
      erewrite bind_run; [|by apply updateSessionStatus_hit].
      cbv beta.
      match goal with
      | |- context [Js.bind (Verify.notify ?a ?b ?c ?d) ?k ?w0] =>
          destruct (notify_trace a b c d w0) as (ev & Hn & Hp & Hc & Hpay);
          rewrite (bind_run (Verify.notify a b c d) k w0 _ _ Hn); cbv beta
      end.
      unfold Js.bind, Js.lift, Js.ret. simpl. intros [= <- <-]. right. split; [done|].
      exists (ev ++ [Js.ConsoleLog ("[Bringin Demo] Mock payment confirmed for checkout: " ++ id)])%list.
      do 2 eexists. simpl. split_and!.
      * by rewrite <- app_assoc.
      * unfold polls in *. rewrite List.filter_app, length_app, Hp. done.
      * unfold notifications in *. rewrite List.filter_app, length_app. simpl. lia.
      * intros ps Hps. apply elem_of_app in Hps as [Hps|Hps]; [by apply Hpay|].
        apply list_elem_of_singleton in Hps. discriminate.
      * done.
      * right. eexists. split; [|done].
        apply bool_decide_eq_false in Hm. by apply eq_None_not_Some.
      * by rewrite lookup_insert_eq.
      * done.
    + simpl. intros [= <- <-]. left. done.
Qed.

(** Every way through the handler: what it returns, what it writes and
    what it leaves in the trace. *)
Lemma handler_cases rt id (w : Js.World Store) c w' :
  Verify.handleVerifyStatus rt id w = (c, w') ->
  (sessions (Js.heap w) !! id = None /\ c = Js.Normal (not_found id) /\ w' = w)
  \/ exists s, sessions (Js.heap w) !! id = Some s /\
     ((status s = paid /\ c = cached_outcome s /\ w' = w)
      \/ (status s <> paid /\ past_expiry rt w s = true
          /\ c = Js.Normal (success (plain_response expired))
          /\ sessions (Js.heap w')
             = <[id := touched s expired (Some (Js.clock rt (S (Js.ticks w)))) None]>
                 (sessions (Js.heap w))
          /\ mockPaidTimestamps (Js.heap w') = mockPaidTimestamps (Js.heap w)
          /\ Js.trace w' = Js.trace w)
      \/ (status s <> paid /\ past_expiry rt w s = false
          /\ exists answer, poll_answer rt w s = Js.Normal answer /\
             ((inconclusive answer = true /\ mock_due rt (after_poll w s) id s = false
               /\ c = Js.Normal (success (plain_response pending))
               /\ Js.heap w' = Js.heap w
               /\ Js.trace w' = Js.Fetched (verifyUrl s) :: Js.trace w)
              \/ (inconclusive answer = true /\ mock_due rt (after_poll w s) id s = true
                  /\ exists ev now t,
                     Js.trace w' = (ev ++ Js.Fetched (verifyUrl s) :: Js.trace w)%list
                     /\ polls ev = O /\ (notifications ev <= 1)%nat
                     /\ (forall ps, Js.PaymentReceived ps ∈ ev -> ps = [payment_of s true])
                     /\ sessions (Js.heap w')
                        = <[id := touched s paid now (Some (Some t))]> (sessions (Js.heap w))
                     /\ marker_step id (mockPaidTimestamps (Js.heap w))
                          (mockPaidTimestamps (Js.heap w'))
                     /\ is_Some (mockPaidTimestamps (Js.heap w') !! id)
                     /\ c = Js.Normal (success (paid_result t s)))
              \/ (exists data, answer = success data /\ Provider.status data = expired
                  /\ c = Js.Normal (success (plain_response expired))
                  /\ sessions (Js.heap w')
                     = <[id := touched s expired (Some (Js.clock rt (S (Js.ticks w)))) None]>
                         (sessions (Js.heap w))
                  /\ mockPaidTimestamps (Js.heap w') = mockPaidTimestamps (Js.heap w)
                  /\ Js.trace w' = Js.Fetched (verifyUrl s) :: Js.trace w)
              \/ (exists data, answer = success data /\ Provider.status data = paid
                  /\ exists ev now,
                     Js.trace w' = (ev ++ Js.Fetched (verifyUrl s) :: Js.trace w)%list
                     /\ polls ev = O /\ (notifications ev <= 1)%nat
                     /\ (forall ps, Js.PaymentReceived ps ∈ ev -> ps = [payment_of s false])
                     /\ sessions (Js.heap w')
                        = <[id := touched s paid now (Some (provider_date rt w data))]>
                            (sessions (Js.heap w))
                     /\ mockPaidTimestamps (Js.heap w') = mockPaidTimestamps (Js.heap w)
                     /\ c = paid_outcome (provider_date rt w data) s)))).
Proof.
  unfold Verify.handleVerifyStatus.
  unfold Js.bind at 1, getSession, Js.gets. cbv iota beta.
  destruct (sessions (Js.heap w) !! id) as [s|] eqn:Hs.
  2:{ unfold Js.ret. intros [= <- <-]. by left. }
  intros Hrun. right. exists s. split; [done|]. revert Hrun.
  destruct (decide (status s = paid)) as [Hp|Hp].
  { intros Hrun. left. split; [done|]. unfold cached_outcome, cached.
    revert Hrun. unfold Verify.optional_iso, Js.bind, Js.lift, Js.ret, Js.toISOString.
    destruct (paidAt s) as [[t|]|]; by intros [= <- <-]. }
  unfold Js.bind at 1, isSessionExpired, Js.bind at 1, Js.new_Date, Js.ret at 1.
  cbv iota beta. unfold Js.getTime at 1. fold (past_expiry rt w s).
  destruct (past_expiry rt w s) eqn:Hexp.
  { erewrite bind_run; [|by apply updateSessionStatus_hit].
    unfold Js.ret. intros [= <- <-]. right. left. by split_and!. }
  poll_step. fold (after_expiry_check w) in Hpoll.
  intros Hrun. right. right. split; [done|]. split; [done|]. exists statusResult. split; [unfold poll_answer; by rewrite Hpoll|].
  assert (sessions (Js.heap (after_poll w s)) !! id = Some s) as Hs1 by done.
  fold (after_poll w s) in Hrun.
  match goal with
  | |- ?G => assert (Verify.mock_fallback rt id s (after_poll w s) = (c, w') ->
                     inconclusive statusResult = true -> G) as Hmock
  end.
  { intros Hm Hinc.
    destruct (mock_fallback_cases rt id s _ c w' Hs1 Hm)
      as [(Hdue & -> & Hh & Ht)|(Hdue & ev & now & t & Ht & Hrest)].
    - left. split_and!; try done.
    - right. left. split_and!; try done. exists ev, now, t. split; [exact Ht|exact Hrest]. }
  destruct statusResult as [data|err]; [|by apply Hmock].
  destruct (Provider.status data) eqn:Hst.
  - apply Hmock; [done|]. simpl. by rewrite Hst.
  - right. right. right. exists data. split; [done|]. split; [done|].
    revert Hrun. unfold provider_date.
    destruct (Js.truthy (Provider.paidAt data)).
    + unfold Js.bind at 1, Js.ret at 1. cbv iota beta.
      erewrite bind_run; [|by apply updateSessionStatus_hit].
      cbv beta.
      match goal with
      | |- context [Js.bind (Verify.notify ?a ?b ?c ?d) ?k ?w0] =>
          destruct (notify_trace a b c d w0) as (ev & Hn & Hpl & Hc & Hpay);
          rewrite (bind_run (Verify.notify a b c d) k w0 _ _ Hn); cbv beta
      end.
      unfold paid_outcome, Js.bind, Js.lift, Js.ret, Js.toISOString.
      destruct (Js.Date_of rt (Provider.paidAt data)) as [t|]; simpl;
        intros [= <- <-]; exists ev; eexists; by split_and!.
    + unfold Js.bind at 1. cbv iota beta.
      erewrite bind_run; [|by apply updateSessionStatus_hit].
      cbv beta.
      match goal with
      | |- context [Js.bind (Verify.notify ?a ?b ?c ?d) ?k ?w0] =>
          destruct (notify_trace a b c d w0) as (ev & Hn & Hpl & Hc & Hpay);
          rewrite (bind_run (Verify.notify a b c d) k w0 _ _ Hn); cbv beta
      end.
      unfold paid_outcome, Js.bind, Js.lift, Js.ret, Js.toISOString. simpl.
      intros [= <- <-]. exists ev. eexists. by split_and!.
  - right. right. left. exists data. split; [done|]. split; [done|].
    revert Hrun.
    erewrite bind_run; [|by apply updateSessionStatus_hit].
    unfold Js.ret. intros [= <- <-]. by split_and!.
Qed.

(** X13.  What [handleVerifyStatus] returns agrees with what it leaves
    in the store.  A failure is [session_not_found], for an identifier
    that is not stored, with nothing touched.  A success with status
    [paid] or [expired] leaves the session stored with that status (the
    paid result carrying the stored [paidAt] and sats); one with status
    [pending] leaves the store as it was, the session not paid.  The
    only exception is the RangeError of [toISOString], and then the
    session is stored as [paid] with an Invalid Date. *)
Theorem handleVerifyStatus_result_reflects_store rt id (w : Js.World Store) :
  let r := Verify.handleVerifyStatus rt id w in
  match r.1 with
  | Js.Normal (failure e) =>
      sessions (Js.heap w) !! id = None /\ failure e = not_found id /\ r.2 = w
  | Js.Normal (success response) =>
      exists s',
        sessions (Js.heap r.2) !! id = Some s'
        /\ match Verify.status response with
           | paid => status s' = paid /\ response = cached s'
           | expired => status s' = expired /\ response = plain_response expired
           | pending =>
               status s' <> paid /\ response = plain_response pending
               /\ Js.heap r.2 = Js.heap w
           end
  | Js.Throw e =>
      e = Js.RangeError "Invalid time value"
      /\ exists s', sessions (Js.heap r.2) !! id = Some s'
                    /\ status s' = paid /\ paidAt s' = Some None
  end.
Proof.
  cbv zeta. destruct (Verify.handleVerifyStatus rt id w) as [c w'] eqn:Hrun.
  apply handler_cases in Hrun. simpl.
  destruct Hrun as [(Hnone & -> & ->)|(s & Hs & Hcase)]; [done|].
  destruct Hcase as [(Hp & -> & ->)|[(Hp & Hexp & -> & Hafter & _)|(Hp & Hexp & answer & Hans & Hcase)]].
  - unfold cached_outcome. destruct (paidAt s) as [[t|]|] eqn:Hpaid; simpl; eauto.
  - simpl. rewrite Hafter, lookup_insert_eq. eauto.
  - destruct Hcase as [(_ & _ & -> & Hh & _)|[(_ & _ & ev & now & t & _ & _ & _ & _ & Hafter & _ & _ & ->)
                      |[(data & _ & _ & -> & Hafter & _)|(data & _ & _ & ev & now & _ & _ & _ & _ & Hafter & _ & ->)]]].
    + simpl. rewrite Hh. eauto.
    + simpl. rewrite Hafter, lookup_insert_eq. eauto.
    + simpl. rewrite Hafter, lookup_insert_eq. eauto.
    + unfold paid_outcome. destruct (provider_date rt w data) as [t|]; simpl;
        rewrite Hafter, lookup_insert_eq; eauto.
Qed.

Lemma polls_cons_fetch ev url : polls (ev ++ [Js.Fetched url]) = S (polls ev).
Proof. unfold polls. rewrite List.filter_app, length_app. simpl. lia. Qed.

Lemma notifications_cons_fetch ev url :
  notifications (ev ++ [Js.Fetched url]) = notifications ev.
Proof. unfold notifications. rewrite List.filter_app, length_app. simpl. lia. Qed.

Lemma polls_zero_no_fetch ev url : polls ev = O -> Js.Fetched url ∉ ev.
Proof.
  unfold polls. induction ev as [|e ev IH]; intros H Hin.
  - by apply elem_of_nil in Hin.
  - apply elem_of_cons in Hin as [<-|Hin]; [done|].
    simpl in H. destruct (is_poll e); [done|]. by apply IH.
Qed.

(** X14.  One call of [handleVerifyStatus] only adds to the trace, and
    what it adds holds at most one request to a verify URL and at most
    one notification of the settlement API.  The request goes to the
    [verifyUrl] of a stored session that is not paid and not past its
    expiry; a notification follows a poll, carries the one payment of
    that session, and the session is stored as [paid] afterwards. *)
Theorem handleVerifyStatus_io rt id (w : Js.World Store) :
  let w' := (Verify.handleVerifyStatus rt id w).2 in
  exists ev,
    Js.trace w' = (ev ++ Js.trace w)%list
    /\ (polls ev <= 1)%nat
    /\ (notifications ev <= 1)%nat
    /\ (forall url, Js.Fetched url ∈ ev ->
          exists s, sessions (Js.heap w) !! id = Some s /\ status s <> paid
                    /\ past_expiry rt w s = false /\ url = verifyUrl s)
    /\ (forall ps, Js.PaymentReceived ps ∈ ev ->
          polls ev = 1%nat
          /\ exists s s' sandbox,
               sessions (Js.heap w) !! id = Some s /\ status s <> paid
               /\ ps = [payment_of s sandbox]
               /\ sessions (Js.heap w') !! id = Some s' /\ status s' = paid).
Proof.
  cbv zeta. destruct (Verify.handleVerifyStatus rt id w) as [c w'] eqn:Hrun.
  apply handler_cases in Hrun. simpl.
  assert (forall tr : list Js.Event, tr = ([] ++ tr)%list) as Hnil by done.
  destruct Hrun as [(Hnone & -> & ->)|(s & Hs & Hcase)].
  { exists []. split_and!; [done|unfold polls; simpl; lia|unfold notifications; simpl; lia| |];
      intros ? Hin; by apply elem_of_nil in Hin. }
  destruct Hcase as [(Hp & -> & ->)|[(Hp & Hexp & -> & Hafter & _ & Ht)|(Hp & Hexp & answer & Hans & Hcase)]].
  { exists []. split_and!; [done|unfold polls; simpl; lia|unfold notifications; simpl; lia| |];
      intros ? Hin; by apply elem_of_nil in Hin. }
  { exists []. split_and!; [done|unfold polls; simpl; lia|unfold notifications; simpl; lia| |];
      intros ? Hin; by apply elem_of_nil in Hin. }
  assert (forall ev sandbox now d,
    Js.trace w' = (ev ++ Js.Fetched (verifyUrl s) :: Js.trace w)%list ->
    polls ev = O -> (notifications ev <= 1)%nat ->
    (forall ps, Js.PaymentReceived ps ∈ ev -> ps = [payment_of s sandbox]) ->
    sessions (Js.heap w') = <[id := touched s paid now d]> (sessions (Js.heap w)) ->
    exists ev0,
      Js.trace w' = (ev0 ++ Js.trace w)%list
      /\ (polls ev0 <= 1)%nat /\ (notifications ev0 <= 1)%nat
      /\ (forall url, Js.Fetched url ∈ ev0 ->
            exists s0, sessions (Js.heap w) !! id = Some s0 /\ status s0 <> paid
                       /\ past_expiry rt w s0 = false /\ url = verifyUrl s0)
      /\ (forall ps, Js.PaymentReceived ps ∈ ev0 ->
            polls ev0 = 1%nat
            /\ exists s0 s' sb,
                 sessions (Js.heap w) !! id = Some s0 /\ status s0 <> paid
                 /\ ps = [payment_of s0 sb]
                 /\ sessions (Js.heap w') !! id = Some s' /\ status s' = paid)) as Hpaid.
  { intros ev sandbox now d Ht Hpl Hn Hpay Hafter.
    exists (ev ++ [Js.Fetched (verifyUrl s)])%list. split_and!.
    - by rewrite <- app_assoc.
    - rewrite polls_cons_fetch. lia.
    - by rewrite notifications_cons_fetch.
    - intros url Hin. apply elem_of_app in Hin as [Hin|Hin].
      + by apply polls_zero_no_fetch in Hin.
      + apply list_elem_of_singleton in Hin as [= ->]. eauto.
    - intros ps Hin. apply elem_of_app in Hin as [Hin|Hin].
      + split; [rewrite polls_cons_fetch; lia|].
        exists s. eexists. exists sandbox. split_and!; [done|done|by apply Hpay| |].
        * by rewrite Hafter, lookup_insert_eq.
        * done.
      + apply list_elem_of_singleton in Hin. discriminate. }
  assert (Js.trace w' = Js.Fetched (verifyUrl s) :: Js.trace w ->
    exists ev0,
      Js.trace w' = (ev0 ++ Js.trace w)%list
      /\ (polls ev0 <= 1)%nat /\ (notifications ev0 <= 1)%nat
      /\ (forall url, Js.Fetched url ∈ ev0 ->
            exists s0, sessions (Js.heap w) !! id = Some s0 /\ status s0 <> paid
                       /\ past_expiry rt w s0 = false /\ url = verifyUrl s0)
      /\ (forall ps, Js.PaymentReceived ps ∈ ev0 ->
            polls ev0 = 1%nat
            /\ exists s0 s' sb,
                 sessions (Js.heap w) !! id = Some s0 /\ status s0 <> paid
                 /\ ps = [payment_of s0 sb]
                 /\ sessions (Js.heap w') !! id = Some s' /\ status s' = paid)) as Hquiet.
  { intros Ht. exists [Js.Fetched (verifyUrl s)]. split_and!.
    - done.
    - unfold polls. simpl. lia.
    - unfold notifications. simpl. lia.
    - intros url Hin. apply list_elem_of_singleton in Hin as [= ->]. eauto.
    - intros ps Hin. apply list_elem_of_singleton in Hin. discriminate. }
  destruct Hcase as [(_ & _ & -> & Hh & Ht)|[(_ & _ & ev & now & t & Ht & Hpl & Hn & Hpay & Hafter & _)
                    |[(data & _ & _ & -> & Hafter & _ & Ht)|(data & _ & _ & ev & now & Ht & Hpl & Hn & Hpay & Hafter & _)]]].
  - by apply Hquiet.
  - by eapply Hpaid.
  - by apply Hquiet.
  - by eapply Hpaid.
Qed.

(** X15.  [handleVerifyStatus] touches the session and the marker of its
    own identifier only, and nothing when that identifier is not stored;
    of its session it keeps every field other than [status], [paidAt]
    and [lastCheckedAt]; it never removes a marker. *)
Theorem handleVerifyStatus_frame rt id (w : Js.World Store) :
  let w' := (Verify.handleVerifyStatus rt id w).2 in
  (forall id', id' <> id ->
      sessions (Js.heap w') !! id' = sessions (Js.heap w) !! id'
      /\ mockPaidTimestamps (Js.heap w') !! id' = mockPaidTimestamps (Js.heap w) !! id')
  /\ (sessions (Js.heap w) !! id = None -> Js.heap w' = Js.heap w)
  /\ (forall s, sessions (Js.heap w) !! id = Some s ->
        exists s',
          sessions (Js.heap w') !! id = Some s'
          /\ (checkoutId s', lnAddress s', eurAmount s', sats s', msats s', bolt11 s',
              verifyUrl s', paymentHash s', createdAt s', expiresAt s')
             = (checkoutId s, lnAddress s, eurAmount s, sats s, msats s, bolt11 s,
                verifyUrl s, paymentHash s, createdAt s, expiresAt s))
  /\ (forall d, mockPaidTimestamps (Js.heap w) !! id = Some d ->
        mockPaidTimestamps (Js.heap w') !! id = Some d).
Proof.
  cbv zeta.
  destruct (handleVerifyStatus_writes rt id w)
    as [->|(s0 & st & now & p & Hs0 & _ & _ & _ & Hafter & Hm)].
  { split_and!; eauto. }
  rewrite Hafter. split_and!.
  - intros id' Hne. rewrite lookup_insert_ne by done. split; [done|].
    destruct Hm as [->|(stamp & _ & ->)]; [done|]. by rewrite lookup_insert_ne.
  - congruence.
  - intros s Hs. rewrite lookup_insert_eq. eexists. split; [done|].
    assert (s0 = s) as -> by congruence. done.
  - intros d Hd. destruct Hm as [->|(stamp & Hnone & ->)]; [done|]. congruence.
Qed.

(** X17.  The branches of [handleVerifyStatus] on a stored session that
    is not paid, other than the paid ones.  Past its expiry the session
    is marked [expired] with the time of the write, the result is
    [expired] and nothing is requested.  Before it, one request goes to
    the verify URL: on the answer [expired] the session is marked
    [expired] likewise; on a failed or [pending] answer with the mock
    fallback not due, the result is [pending] and the store is as it
    was. *)
Theorem handleVerifyStatus_unpaid_outcomes rt id (w : Js.World Store) s :
  sessions (Js.heap w) !! id = Some s ->
  status s <> paid ->
  let r := Verify.handleVerifyStatus rt id w in
  (past_expiry rt w s = true ->
     r.1 = Js.Normal (success (plain_response expired))
     /\ sessions (Js.heap r.2) !! id
        = Some (touched s expired (Some (Js.clock rt (S (Js.ticks w)))) None)
     /\ Js.trace r.2 = Js.trace w)
  /\ (past_expiry rt w s = false ->
      forall answer, poll_answer rt w s = Js.Normal answer ->
        (forall data, answer = success data -> Provider.status data = expired ->
           r.1 = Js.Normal (success (plain_response expired))
           /\ sessions (Js.heap r.2) !! id
              = Some (touched s expired (Some (Js.clock rt (S (Js.ticks w)))) None)
           /\ Js.trace r.2 = Js.Fetched (verifyUrl s) :: Js.trace w)
        /\ (inconclusive answer = true ->
            mock_due rt (after_poll w s) id s = false ->
            r.1 = Js.Normal (success (plain_response pending))
            /\ Js.heap r.2 = Js.heap w
            /\ Js.trace r.2 = Js.Fetched (verifyUrl s) :: Js.trace w)).
Proof.
  intros Hs Hp. cbv zeta.
  destruct (Verify.handleVerifyStatus rt id w) as [c w'] eqn:Hrun.
  apply handler_cases in Hrun. simpl.
  destruct Hrun as [(Hnone & _)|(s0 & Hs0 & Hcase)]; [congruence|].
  assert (s0 = s) as -> by congruence.
  destruct Hcase as [(Hp' & _)|[(_ & Hexp & -> & Hafter & _ & Ht)|(_ & Hexp & answer & Hans & Hcase)]];
    [done| |].
  - split; [|congruence]. intros _. by rewrite Hafter, lookup_insert_eq.
  - split; [congruence|]. intros _ answer' Hans'.
    assert (answer' = answer) as -> by congruence.
    destruct Hcase as [(Hinc & Hdue & -> & Hh & Ht)|[(Hinc & Hdue & _)
                      |[(data & -> & Hst & -> & Hafter & _ & Ht)|(data & -> & Hst & _)]]].
    + split; [|done]. intros data -> Hst. simpl in Hinc. rewrite Hst in Hinc.
      by apply bool_decide_eq_true in Hinc.
    + split; [|congruence]. intros data -> Hst. simpl in Hinc. rewrite Hst in Hinc.
      by apply bool_decide_eq_true in Hinc.
    + split.
      * intros data' [= <-] _. by rewrite Hafter, lookup_insert_eq.
      * simpl. rewrite Hst. intros Hinc. by apply bool_decide_eq_true in Hinc.
    + split.
      * intros data' [= <-] Hst'. congruence.
      * simpl. rewrite Hst. intros Hinc. by apply bool_decide_eq_true in Hinc.
Qed.

Lemma handleVerifyStatus_unpaid_outcomes_witness :
  (Verify.handleVerifyStatus Scenario.upstream_expired_then_paid "chk_1"
     (Scenario.ordered Scenario.upstream_expired_then_paid)).1
  = Js.Normal (success (plain_response expired)).
Proof.
  destruct (handleVerifyStatus_unpaid_outcomes Scenario.upstream_expired_then_paid "chk_1"
              (Scenario.ordered Scenario.upstream_expired_then_paid)
              (fresh Scenario.order (Some 1000%Z))) as [_ Hlive].
  - vm_compute. reflexivity.
  - vm_compute. discriminate.
  - destruct (Hlive eq_refl
                (success {| Provider.status := expired; Provider.paidAt := Js.JUndefined;
                            Provider.eurCredited := Js.JUndefined |})
                eq_refl) as [Hexpired _].
    exact (proj1 (Hexpired _ eq_refl eq_refl)).
Defined.

(* ===================================================================== *)
(** ** The LNURL-pay requests                                            *)
(* ===================================================================== *)

Ltac lnurl_unfold :=
  unfold Lnurl.fetchLnUrlPayParams, Lnurl.fetchLnUrlPayParams_try,
    Lnurl.requestInvoice, Lnurl.requestInvoice_try,
    Js.try_catch, Js.bind, Js.do_fetch, Js.json, Js.prop, Js.ret, Js.throw in *.

(** X18.  [fetchLnUrlPayParams] never throws and leaves the store and
    the clock alone.  For an address that does not resolve it hands on
    the failure of [resolveLightningAddress] without a request.
    Otherwise it makes exactly one request, to the discovery URL, and
    succeeds exactly when the response is a 2xx whose body parses to an
    object with tag [payRequest], truthy [callback] and [metadata] and
    numeric [minSendable] and [maxSendable], returning that body; its
    failure codes are [lnurl_fetch_failed], [invalid_lnurl_response]
    and [lnurl_fetch_error]. *)
Theorem fetchLnUrlPayParams_requests {St} rt Number_toString lnAddress (w : Js.World St) :
  exists r w',
    Lnurl.fetchLnUrlPayParams rt Number_toString lnAddress w = (Js.Normal r, w')
    /\ Js.heap w' = Js.heap w /\ Js.ticks w' = Js.ticks w
    /\ match Provider.resolveLightningAddress lnAddress with
       | failure e => r = failure e /\ w' = w
       | success url =>
           w' = polled url w
           /\ (forall e, r = failure e ->
                 code e = "lnurl_fetch_failed" \/ code e = "invalid_lnurl_response"
                 \/ code e = "lnurl_fetch_error")
           /\ (forall data,
                 r = success data <->
                 exists response,
                   Js.fetch rt (Js.trace w) url = Js.Responded response
                   /\ Js.ok response = true
                   /\ Js.body response = Some data
                   /\ valid_params data = true)
       end.
Proof.
  lnurl_unfold.
  destruct (Provider.resolveLightningAddress lnAddress) as [url|e]; [|by eexists _, _].
  unfold polled.
  destruct (Js.fetch rt (Js.trace w) url) as [e|resp] eqn:Hfetch.
  { eexists _, _. split; [reflexivity|]. split_and!; try done.
    - intros e0 [= <-]. simpl. auto.
    - intros data. split; [done|]. by intros (response & ? & _). }
  destruct (Js.ok resp) eqn:Hok; simpl.
  2:{ eexists _, _. split; [reflexivity|]. split_and!; try done.
      - intros e0 [= <-]. simpl. auto.
      - intros data. split; [done|]. intros (response & [= <-] & ? & _). congruence. }
  destruct (Js.body resp) as [data|] eqn:Hbody.
  2:{ eexists _, _. split; [reflexivity|]. split_and!; try done.
      - intros e0 [= <-]. simpl. auto.
      - intros data. split; [done|]. intros (response & [= <-] & _ & ? & _). congruence. }
  assert (forall r0 : Result Js.JSValue,
    (forall d, r0 = success d -> d = data /\ valid_params data = true) ->
    (valid_params data = true -> r0 = success data) ->
    forall data0, r0 = success data0 <->
      exists response, Js.Responded resp = Js.Responded response
        /\ Js.ok response = true /\ Js.body response = Some data0
        /\ valid_params data0 = true) as Hiff.
  { intros r0 Hsound Hcomplete data0. split.
    - intros Hr. destruct (Hsound _ Hr) as [-> Hv]. by exists resp.
    - intros (response & [= <-] & _ & Hb & Hv).
      assert (data0 = data) as -> by congruence. by apply Hcomplete. }
  destruct data as [| |b|n|s|items|fields]; simpl;
    try (eexists _, _; split; [reflexivity|]; split_and!; try done;
         [intros e0 [= <-]; simpl; auto | apply Hiff; [done|done]]).
  unfold valid_params, field in Hiff.
  destruct (Js.is_str (Js.assoc "tag" fields) "payRequest"); simpl.
  2:{ eexists _, _; split; [reflexivity|]; split_and!; try done;
        [intros e0 [= <-]; simpl; auto | apply Hiff; [done|done]]. }
  destruct (Js.truthy (Js.assoc "callback" fields)); simpl.
  2:{ eexists _, _; split; [reflexivity|]; split_and!; try done;
        [intros e0 [= <-]; simpl; auto | apply Hiff; [done|done]]. }
  destruct (Js.truthy (Js.assoc "metadata" fields)); simpl.
  2:{ eexists _, _; split; [reflexivity|]; split_and!; try done;
        [intros e0 [= <-]; simpl; auto | apply Hiff; [done|done]]. }
  destruct (Lnurl.is_number (Js.assoc "minSendable" fields)); simpl.
  2:{ eexists _, _; split; [reflexivity|]; split_and!; try done;
        [intros e0 [= <-]; simpl; auto | apply Hiff; [done|done]]. }
  destruct (Lnurl.is_number (Js.assoc "maxSendable" fields)); simpl.
  2:{ eexists _, _; split; [reflexivity|]; split_and!; try done;
        [intros e0 [= <-]; simpl; auto | apply Hiff; [done|done]]. }
  eexists _, _; split; [reflexivity|]; split_and!; try done.
  apply Hiff; [by intros d [= <-]|done].
Qed.

(** X19.  [requestInvoice] never throws and leaves the store and the
    clock alone.  An amount below [minSendable] or above [maxSendable]
    fails with [amount_out_of_range] before any request; a callback that
    is no URL fails with [invoice_request_error], also without a
    request.  Otherwise exactly one request goes to the callback URL
    with [amount] set to the millisatoshis, and the call succeeds
    exactly when the response is a 2xx whose body has no [status]
    ["ERROR"], no truthy [reason] and a truthy [pr], returning that
    body; its failure codes are [invoice_request_failed],
    [invoice_request_error] and [invalid_invoice_response]. *)
Theorem requestInvoice_outcomes {St} rt Number_toString callback msats minSendable maxSendable
    (w : Js.World St) :
  exists r w',
    Lnurl.requestInvoice rt Number_toString callback msats minSendable maxSendable w
    = (Js.Normal r, w')
    /\ Js.heap w' = Js.heap w /\ Js.ticks w' = Js.ticks w
    /\ (out_of_range msats minSendable maxSendable = true ->
        w' = w
        /\ exists m, r = Lnurl.Any.failure
                           {| Lnurl.Any.code := "amount_out_of_range"; Lnurl.Any.message := m |})
    /\ (out_of_range msats minSendable maxSendable = false ->
        match Js.URL_parse rt callback with
        | None =>
            w' = w
            /\ exists m, r = Lnurl.Any.failure
                              {| Lnurl.Any.code := "invoice_request_error";
                                 Lnurl.Any.message := m |}
        | Some u =>
            w' = polled (invoice_url rt Number_toString u msats) w
            /\ (forall e, r = Lnurl.Any.failure e ->
                  Lnurl.Any.code e = "invoice_request_failed"
                  \/ Lnurl.Any.code e = "invoice_request_error"
                  \/ Lnurl.Any.code e = "invalid_invoice_response")
            /\ (forall data,
                  r = Lnurl.Any.success data <->
                  exists response,
                    Js.fetch rt (Js.trace w) (invoice_url rt Number_toString u msats)
                    = Js.Responded response
                    /\ Js.ok response = true
                    /\ Js.body response = Some data
                    /\ valid_invoice data = true)
        end).
Proof.
  unfold out_of_range, invoice_url. lnurl_unfold.
  destruct (PrimFloat.ltb msats minSendable || PrimFloat.ltb maxSendable msats).
  { eexists _, _. split; [reflexivity|]. split_and!; try done. intros _. split; [done|]. by eexists. }
  destruct (Js.URL_parse rt callback) as [u|].
  2:{ eexists _, _. split; [reflexivity|]. split_and!; try done.
      intros _. split; [done|]. by eexists. }
  unfold polled.
  set (url := Js.href (Js.searchParams_set rt u "amount" (Number_toString msats))).
  destruct (Js.fetch rt (Js.trace w) url) as [e|resp] eqn:Hfetch.
  { eexists _, _. split; [reflexivity|]. split_and!; try done. intros _. split_and!; try done.
    - intros e0 [= <-]. simpl. auto.
    - intros data. split; [done|]. by intros (response & ? & _). }
  destruct (Js.ok resp) eqn:Hok; simpl.
  2:{ eexists _, _. split; [reflexivity|]. split_and!; try done. intros _. split_and!; try done.
      - intros e0 [= <-]. simpl. auto.
      - intros data. split; [done|]. intros (response & [= <-] & ? & _). congruence. }
  destruct (Js.body resp) as [data|] eqn:Hbody.
  2:{ eexists _, _. split; [reflexivity|]. split_and!; try done. intros _. split_and!; try done.
      - intros e0 [= <-]. simpl. auto.
      - intros data. split; [done|]. intros (response & [= <-] & _ & ? & _). congruence. }
  assert (forall r0 : Lnurl.Any.Result Js.JSValue,
    (forall d, r0 = Lnurl.Any.success d -> d = data /\ valid_invoice data = true) ->
    (valid_invoice data = true -> r0 = Lnurl.Any.success data) ->
    forall data0, r0 = Lnurl.Any.success data0 <->
      exists response, Js.Responded resp = Js.Responded response
        /\ Js.ok response = true /\ Js.body response = Some data0
        /\ valid_invoice data0 = true) as Hiff.
  { intros r0 Hsound Hcomplete data0. split.
    - intros Hr. destruct (Hsound _ Hr) as [-> Hv]. by exists resp.
    - intros (response & [= <-] & _ & Hb & Hv).
      assert (data0 = data) as -> by congruence. by apply Hcomplete. }
  destruct data as [| |b|n|s|items|fields]; simpl;
    try (eexists _, _; split; [reflexivity|]; split_and!; try done; intros _;
         split_and!; try done;
         [intros e0 [= <-]; simpl; auto | apply Hiff; [done|done]]).
  unfold valid_invoice, field in Hiff.
  destruct (Js.is_str (Js.assoc "status" fields) "ERROR"); simpl.
  { eexists _, _; split; [reflexivity|]; split_and!; try done; intros _;
      split_and!; try done;
      [intros e0 [= <-]; simpl; auto | apply Hiff; [done|done]]. }
  destruct (Js.truthy (Js.assoc "reason" fields)); simpl.
  { eexists _, _; split; [reflexivity|]; split_and!; try done; intros _;
      split_and!; try done;
      [intros e0 [= <-]; simpl; auto | apply Hiff; [done|done]]. }
  destruct (Js.truthy (Js.assoc "pr" fields)); simpl.
  2:{ eexists _, _; split; [reflexivity|]; split_and!; try done; intros _;
      split_and!; try done;
      [intros e0 [= <-]; simpl; auto | apply Hiff; [done|done]]. }
  eexists _, _; split; [reflexivity|]; split_and!; try done. intros _.
  split_and!; try done.
  apply Hiff; [by intros d [= <-]|done].
Qed.

Lemma truthy_optional o : Js.truthy (optional o) = Js.present o.
Proof. by destruct o. Qed.

(** X20.  On a callback response that has the declared type
    [LnUrlPayCallback] (optional fields absent or strings) and a string
    callback, [getVerifyUrl] as it runs on the parsed JSON computes what
    [getVerifyUrl] read at its declared types computes, and has no
    effect: the priority order proved for the typed reading is the one
    [createInvoiceFromLnAddress] gets. *)
Theorem getVerifyUrl_any_typed {St} rt Number_toString
    (r : Provider.LnUrlPayCallback) callback lnAddress (w : Js.World St) :
  Lnurl.getVerifyUrl_any rt Number_toString (untyped r) (Js.JStr callback) lnAddress w
  = (as_value (Provider.getVerifyUrl rt r callback lnAddress), w).
Proof.
  unfold Lnurl.getVerifyUrl_any, Provider.getVerifyUrl, untyped, Js.bind, Js.prop, Js.ret,
    Js.throw.
  cbn [Js.assoc String.eqb Ascii.eqb Bool.eqb]. simpl Js.assoc.
  rewrite !truthy_optional.
  destruct r as [pr0 [v|] [k|] [h|] [c|]]; cbn [Provider.verify Provider.k1 Provider.paymentHash
    Provider.checkingId Js.present optional default Lnurl.to_string as_value];
    repeat match goal with
           | |- context [negb (String.eqb ?s "")] => destruct (String.eqb s ""); cbn [negb]
           end;
    try reflexivity;
    destruct (Js.URL_parse rt callback); reflexivity.
Qed.





(* ===================================================================== *)
(** ** Calls that overlap                                                *)
(* ===================================================================== *)

(** A turn runs like the monad it is made of. *)
Lemma turn_of_bind {A} (m : Js.JS Store A) (k : A -> Js.JS Store Async.Step) w a w' :
  m w = (Js.Normal a, w') -> Async.turn_of (Js.bind m k) w = Async.turn_of (k a) w'.
Proof. unfold Async.turn_of, Js.bind. by intros ->. Qed.

Lemma turn_of_bind_throw {A} (m : Js.JS Store A) (k : A -> Js.JS Store Async.Step) w e w' :
  m w = (Js.Throw e, w') -> Async.turn_of (Js.bind m k) w = (Async.Done (Js.Throw e), w').
Proof. unfold Async.turn_of, Js.bind. by intros ->. Qed.

(** Two functions of the store never throw. *)
Lemma updateSessionStatus_total rt id st d (w : Js.World Store) :
  exists w', updateSessionStatus rt id st d w = (Js.Normal tt, w').
Proof.
  unfold updateSessionStatus, Js.bind, Js.gets.
  destruct (sessions (Js.heap w) !! id); by eexists.
Qed.

Lemma shouldMockPaid_total rt id created (w : Js.World Store) :
  exists b w', shouldMockPaid rt id created w = (Js.Normal b, w').
Proof.
  unfold shouldMockPaid, Js.bind, Js.gets, Js.Date_now, Js.new_Date, Js.modify, Js.ret.
  destruct (bool_decide _); [by eexists _, _|]. simpl.
  destruct (Js.num_gt _ _); by eexists _, _.
Qed.

Ltac both_run H :=
  rewrite (turn_of_bind _ _ _ _ _ H), (bind_run _ _ _ _ _ H).

Ltac both_step :=
  match goal with
  | |- context [Async.turn_of (Js.bind ?m ?k) ?w0] =>
      rewrite (turn_of_bind m k w0 _ _ eq_refl);
      match goal with
      | |- context [Js.bind m ?k' w0] => rewrite (bind_run m k' w0 _ _ eq_refl)
      end
  end.

Ltac both_update :=
  match goal with
  | |- context [Async.turn_of (Js.bind (updateSessionStatus ?rt ?id ?st ?d) _) ?w0] =>
      let w2 := fresh "w" in
      let Hu := fresh "Hu" in
      destruct (updateSessionStatus_total rt id st d w0) as [w2 Hu];
      both_run Hu
  end.

(** Resumed at once, the notification is the [try]/[catch] of the
    handler. *)
Lemma settle_notification rt session sandbox complaint d n (w : Js.World Store) :
  Async.settle rt (S n)
    (Async.turn_of (Async.request_notification rt session sandbox complaint d) w)
  = (Verify.notify rt session sandbox complaint ;;
     let* iso := Js.lift (Js.toISOString d) in
     Js.ret (success {| Verify.status := paid; Verify.paidAt := Some iso;
                        Verify.amountSatsReceived := Some (sats session) |})) w.
Proof.
  unfold Async.turn_of, Async.request_notification, Async.finish, Async.done, Verify.notify,
    Js.try_catch, Js.client_paymentReceived, Js.bind, Js.emit, Js.lift, Js.ret.
  destruct (Js.createMoneyDevKitClient rt (Js.trace w)).
  - destruct (Js.toISOString d); reflexivity.
  - simpl. unfold Async.turn_of, Async.finish, Async.done, Js.bind, Js.emit, Js.lift, Js.ret.
    destruct (Js.paymentReceived rt (Js.trace w) _); destruct (Js.toISOString d);
      destruct n; reflexivity.
Qed.

Lemma settle_mock_fallback rt id session n (w : Js.World Store) :
  Async.settle rt (S n) (Async.turn_of (Async.mock_fallback rt id session) w)
  = Verify.mock_fallback rt id session w.
Proof.
  unfold Async.mock_fallback, Verify.mock_fallback.
  destruct (shouldMockPaid_total rt id (createdAt session) w) as (b & w1 & Hm).
  both_run Hm.
  destruct b; [|reflexivity].
  both_step. both_step. both_update.
  apply settle_notification.
Qed.

Lemma settle_await rt n k (w : Js.World Store) :
  Async.settle rt (S n) (Async.turn_of (Js.ret (Async.Suspend k)) w)
  = Async.settle rt n (Async.turn_of (Async.resume rt k) w).
Proof. reflexivity. Qed.

(** A call that nothing interrupts is [handleVerifyStatus] as modelled in
    one piece: same result, same world. *)
Lemma alone_is_handleVerifyStatus rt id (w : Js.World Store) :
  Async.alone rt id w = Verify.handleVerifyStatus rt id w.
Proof.
  unfold Async.alone, Async.start, Verify.handleVerifyStatus.
  both_step. cbv beta.
  destruct (sessions (Js.heap w) !! id) as [session|] eqn:Hs; [|reflexivity].
  destruct (decide (status session = paid)) as [Hp|Hp].
  { destruct (optional_iso_pure (paidAt session) w) as [[iso|e] Hiso].
    - by rewrite (turn_of_bind _ _ _ _ _ Hiso), (bind_run _ _ _ _ _ Hiso).
    - by rewrite (turn_of_bind_throw _ _ _ _ _ Hiso), (bind_throw _ _ _ _ _ Hiso). }
  both_step. cbv beta.
  destruct (Js.num_gt _ _).
  { by both_update. }
  match goal with
  | |- context [Js.bind (Provider.checkInvoiceStatus rt ?url) _ ?w0] =>
      destruct (checkInvoiceStatus_total rt url w0) as [r Hr]
  end.
  rewrite (turn_of_bind _ _ _ _ _ Hr), (bind_run _ _ _ _ _ Hr).
  rewrite settle_await. unfold Async.resume.
  destruct r as [data|err]; [|apply settle_mock_fallback].
  destruct (Provider.status data); [apply settle_mock_fallback| |].
  - match goal with
    | |- context [Js.bind (if ?c then ?a else ?b) _ ?w0] =>
        assert (exists d w2, (if c then a else b) w0 = (Js.Normal d, w2)) as (d & w2 & Hd)
          by (destruct c; by eexists _, _)
    end.
    rewrite (turn_of_bind _ _ _ _ _ Hd), (bind_run _ _ _ _ _ Hd).
    both_update.
    apply settle_notification.
  - by both_update.
Qed.

(** What the parts of a turn write and send. *)
Lemma updateSessionStatus_writes rt id st d (w : Js.World Store) :
  st <> pending ->
  exists w', updateSessionStatus rt id st d w = (Js.Normal tt, w')
             /\ Js.trace w' = Js.trace w
             /\ writes_status id (sessions (Js.heap w)) (sessions (Js.heap w')).
Proof.
  intros Hst. unfold updateSessionStatus, Js.bind, Js.gets, Js.new_Date, Js.modify, Js.ret.
  destruct (sessions (Js.heap w) !! id) as [s0|] eqn:Hs.
  - eexists. split; [reflexivity|]. split; [done|]. right. by eexists s0, st, _, d.
  - eexists. split; [reflexivity|]. split; [done|]. by left.
Qed.

Lemma shouldMockPaid_sessions rt id created (w : Js.World Store) :
  exists b w', shouldMockPaid rt id created w = (Js.Normal b, w')
               /\ sessions (Js.heap w') = sessions (Js.heap w)
               /\ Js.trace w' = Js.trace w.
Proof.
  unfold shouldMockPaid, Js.bind, Js.gets, Js.Date_now, Js.new_Date, Js.modify, Js.ret.
  destruct (bool_decide _); [by eexists _, _|]. simpl.
  destruct (Js.num_gt _ _); by eexists _, _.
Qed.

Lemma request_notification_spec rt session sandbox complaint d (w : Js.World Store) :
  exists step w',
    Async.turn_of (Async.request_notification rt session sandbox complaint d) w = (step, w')
    /\ Js.heap w' = Js.heap w
    /\ (notifications (Js.trace w') <= S (notifications (Js.trace w)))%nat
    /\ (forall k, step = Async.Suspend k -> awaiting_poll k = false).
Proof.
  unfold Async.turn_of, Async.request_notification, Async.finish, Async.done,
    Js.bind, Js.emit, Js.lift, Js.ret.
  destruct (Js.createMoneyDevKitClient rt (Js.trace w)).
  - destruct (Js.toISOString d); eexists _, _; (split; [reflexivity|]);
      (split_and!; [done|unfold notifications; simpl; lia|done]).
  - eexists _, _. split; [reflexivity|].
    split_and!; [done|unfold notifications; simpl; lia|by intros k [= <-]].
Qed.

Lemma mock_fallback_spec rt id session (w : Js.World Store) :
  exists step w',
    Async.turn_of (Async.mock_fallback rt id session) w = (step, w')
    /\ writes_status id (sessions (Js.heap w)) (sessions (Js.heap w'))
    /\ (notifications (Js.trace w') <= S (notifications (Js.trace w)))%nat
    /\ (forall k, step = Async.Suspend k -> awaiting_poll k = false).
Proof.
  unfold Async.mock_fallback.
  destruct (shouldMockPaid_sessions rt id (createdAt session) w) as (b & w1 & Hm & Hs1 & Ht1).
  rewrite (turn_of_bind _ _ _ _ _ Hm).
  destruct b.
  2:{ eexists _, _. split; [reflexivity|].
      split_and!; [left; by rewrite Hs1|rewrite Ht1; lia|done]. }
  match goal with
  | |- context [Async.turn_of (Js.bind ?m ?k) ?w0] => rewrite (turn_of_bind m k w0 _ _ eq_refl)
  end.
  match goal with
  | |- context [Async.turn_of (Js.bind ?m ?k) ?w0] => rewrite (turn_of_bind m k w0 _ _ eq_refl)
  end.
  match goal with
  | |- context [Async.turn_of (Js.bind (updateSessionStatus ?rt ?i ?st ?d) _) ?w0] =>
      destruct (updateSessionStatus_writes rt i st d w0 ltac:(done)) as (w2 & Hu & Ht2 & Hw2);
      rewrite (turn_of_bind _ _ _ _ _ Hu)
  end.
  match goal with
  | |- context [Async.request_notification ?rt ?s ?sb ?c ?d] =>
      destruct (request_notification_spec rt s sb c d w2) as (step & w3 & Hn & Hh3 & Hc3 & Hk3)
  end.
  exists step, w3. split; [exact Hn|]. split_and!.
  - rewrite Hh3. simpl in Hw2. by rewrite Hs1 in Hw2.
  - rewrite Ht2 in Hc3. simpl in Hc3. rewrite Ht1 in Hc3. exact Hc3.
  - exact Hk3.
Qed.

(** The first turn of a call: it writes at most its own session, sends
    no notification, does nothing at all on a paid session, and is
    suspended at its poll only. *)
Lemma start_spec rt id (w : Js.World Store) :
  exists step w',
    Async.turn_of (Async.start rt id) w = (step, w')
    /\ writes_status id (sessions (Js.heap w)) (sessions (Js.heap w'))
    /\ notifications (Js.trace w') = notifications (Js.trace w)
    /\ (forall s, sessions (Js.heap w) !! id = Some s -> status s = paid ->
          w' = w /\ exists c, step = Async.Done c)
    /\ (forall k, step = Async.Suspend k -> polling id k = true).
Proof.
  unfold Async.start.
  match goal with
  | |- context [Async.turn_of (Js.bind ?m ?k) ?w0] => rewrite (turn_of_bind m k w0 _ _ eq_refl)
  end.
  cbv beta.
  destruct (sessions (Js.heap w) !! id) as [session|] eqn:Hs.
  2:{ eexists _, _. split; [reflexivity|]. split_and!; [by left|done|done|done]. }
  destruct (decide (status session = paid)) as [Hp|Hp].
  { destruct (optional_iso_pure (paidAt session) w) as [[iso|e] Hiso].
    - rewrite (turn_of_bind _ _ _ _ _ Hiso). eexists _, _. split; [reflexivity|].
      split_and!; [by left|done| |done]. intros _ _ _. split; [done|by eexists].
    - rewrite (turn_of_bind_throw _ _ _ _ _ Hiso). eexists _, _. split; [reflexivity|].
      split_and!; [by left|done| |done]. intros _ _ _. split; [done|by eexists]. }
  match goal with
  | |- context [Async.turn_of (Js.bind ?m ?k) ?w0] => rewrite (turn_of_bind m k w0 _ _ eq_refl)
  end.
  cbv beta.
  destruct (Js.num_gt _ _).
  { match goal with
    | |- context [Async.turn_of (Js.bind (updateSessionStatus ?rt ?i ?st ?d) _) ?w0] =>
        destruct (updateSessionStatus_writes rt i st d w0 ltac:(done)) as (w2 & Hu & Ht2 & Hw2);
        rewrite (turn_of_bind _ _ _ _ _ Hu)
    end.
    eexists _, _. split; [reflexivity|].
    split_and!; [exact Hw2|by rewrite Ht2| |done].
    intros s [= <-] Hpaid. done. }
  match goal with
  | |- context [Async.turn_of (Js.bind (Provider.checkInvoiceStatus rt ?url) _) ?w0] =>
      destruct (checkInvoiceStatus_total rt url w0) as [r Hr]
  end.
  rewrite (turn_of_bind _ _ _ _ _ Hr).
  eexists _, _. split; [reflexivity|].
  split_and!; [by left|unfold notifications; done| |].
  - intros s [= <-] Hpaid. done.
  - intros k [= <-]. simpl. apply String.eqb_refl.
Qed.

(** The later turns of a call: a call resumed from its poll writes at
    most the session under its identifier and sends at most one
    notification; one resumed from its notification writes nothing and
    sends none; neither is suspended at a poll again. *)
Lemma resume_spec rt k (w : Js.World Store) :
  exists step w',
    Async.turn_of (Async.resume rt k) w = (step, w')
    /\ (forall id, polling id k = false -> sessions (Js.heap w') !! id = sessions (Js.heap w) !! id)
    /\ (exists id, writes_status id (sessions (Js.heap w)) (sessions (Js.heap w')))
    /\ (notifications (Js.trace w') + (if awaiting_poll k then 0 else 1)
        <= S (notifications (Js.trace w)))%nat
    /\ (forall k', step = Async.Suspend k' -> awaiting_poll k' = false).
Proof.
  assert (forall id j before after,
            String.eqb j id = false -> writes_status j before after ->
            after !! id = before !! id) as Hframe.
  { intros id j before after Hne [->|(s0 & st & now & p & _ & _ & ->)]; [done|].
    apply String.eqb_neq in Hne. by rewrite lookup_insert_ne. }
  destruct k as [j session r|session d complaint outcome]; cbn [Async.resume awaiting_poll polling].
  - assert (exists step w',
      Async.turn_of (Async.mock_fallback rt j session) w = (step, w')
      /\ (forall id, String.eqb j id = false ->
            sessions (Js.heap w') !! id = sessions (Js.heap w) !! id)
      /\ (exists id, writes_status id (sessions (Js.heap w)) (sessions (Js.heap w')))
      /\ (notifications (Js.trace w') + 0 <= S (notifications (Js.trace w)))%nat
      /\ (forall k', step = Async.Suspend k' -> awaiting_poll k' = false)) as Hmock.
    { destruct (mock_fallback_spec rt j session w) as (step & w' & Hrun & Hw & Hn & Hk).
      exists step, w'. split; [done|]. split_and!; [|by exists j|lia|done].
      intros id Hne. by apply (Hframe id j). }
    destruct r as [data|err]; [|exact Hmock].
    destruct (Provider.status data); [exact Hmock| |].
    + match goal with
      | |- context [Async.turn_of (Js.bind (if ?c then ?a else ?b) _) ?w0] =>
          assert (exists d w2, (if c then a else b) w0 = (Js.Normal d, w2)
                               /\ Js.heap w2 = Js.heap w0 /\ Js.trace w2 = Js.trace w0)
            as (d & w2 & Hd & Hh2 & Ht2)
            by (destruct c; by eexists _, _)
      end.
      rewrite (turn_of_bind _ _ _ _ _ Hd).
      destruct (updateSessionStatus_writes rt j paid (Some d) w2 ltac:(done))
        as (w3 & Hu & Ht3 & Hw3).
      rewrite (turn_of_bind _ _ _ _ _ Hu).
      match goal with
      | |- context [Async.request_notification ?rt ?s ?sb ?c ?d] =>
          destruct (request_notification_spec rt s sb c d w3) as (step & w4 & Hn & Hh4 & Hc4 & Hk4)
      end.
      exists step, w4. split; [exact Hn|]. rewrite Hh4, <- Hh2. split_and!.
      * intros id Hne. by apply (Hframe id j).
      * by exists j.
      * rewrite Ht3, Ht2 in Hc4. lia.
      * exact Hk4.
    + destruct (updateSessionStatus_writes rt j expired None w ltac:(done))
        as (w3 & Hu & Ht3 & Hw3).
      rewrite (turn_of_bind _ _ _ _ _ Hu).
      eexists _, _. split; [reflexivity|]. split_and!.
      * intros id Hne. by apply (Hframe id j).
      * by exists j.
      * rewrite Ht3. lia.
      * done.
  - unfold Async.turn_of, Async.finish, Async.done, Js.bind, Js.emit, Js.lift, Js.ret.
    destruct outcome; destruct (Js.toISOString d); eexists _, _; (split; [reflexivity|]);
      (split_and!; [done|by exists ""; left|unfold notifications; simpl; lia|done]).
Qed.

(** A write of a call leaves the pending sessions as they were. *)
Lemma writes_status_pending id before after j s' :
  writes_status id before after ->
  after !! j = Some s' -> status s' = pending -> before !! j = Some s'.
Proof.
  intros [->|(s0 & st & now & p & _ & Hst & ->)] Hj Hp; [done|].
  destruct (decide (j = id)) as [->|Hne].
  - rewrite lookup_insert_eq in Hj. injection Hj as <-. simpl in Hp. done.
  - by rewrite lookup_insert_ne in Hj.
Qed.

(** The sweep adds no session, keeps those not expired and sends nothing. *)
Lemma sweep_sessions rt (w : Js.World Store) id s' :
  sessions (Js.heap (cleanupExpiredSessions rt w).2) !! id = Some s' ->
  sessions (Js.heap w) !! id = Some s'.
Proof.
  rewrite cleanup_run. cbv zeta. simpl. intros H.
  by apply map_lookup_filter_Some in H as [H _].
Qed.

Lemma sweep_keeps rt (w : Js.World Store) id s :
  sessions (Js.heap w) !! id = Some s -> status s <> expired ->
  sessions (Js.heap (cleanupExpiredSessions rt w).2) !! id = Some s.
Proof.
  intros Hs Hne. rewrite cleanup_run. cbv zeta. simpl.
  apply map_lookup_filter_Some. split; [done|]. unfold kept, stale. simpl.
  by rewrite bool_decide_eq_false_2.
Qed.


(** A turn never writes [pending]: a session that is pending after it
    was there before it, untouched. *)
Lemma turn_pending rt t (st : Async.State) id s' :
  sessions (Js.heap (Async.world (Async.turn rt t st))) !! id = Some s' ->
  status s' = pending ->
  sessions (Js.heap (Async.world st)) !! id = Some s'.
Proof.
  destruct t as [j|n|]; cbn [Async.turn].
  - destruct (start_spec rt j (Async.world st)) as (step & w' & -> & Hw & _).
    destruct step; cbn [Async.landed Async.world]; by apply (writes_status_pending j).
  - destruct (Async.suspended st !! n) as [k|]; [|done].
    destruct (resume_spec rt k (Async.world st)) as (step & w' & -> & _ & [j Hw] & _).
    destruct step; cbn [Async.landed Async.world]; by apply (writes_status_pending j).
  - cbn [Async.world]. intros H _. by apply sweep_sessions in H.
Qed.

Lemma settled_app id l k :
  settled id (l ++ [k]) = settled id l && negb (polling id k).
Proof. unfold settled. rewrite forallb_app. simpl. by rewrite andb_true_r. Qed.

Lemma settled_lookup id l n k :
  settled id l = true -> l !! n = Some k -> polling id k = false.
Proof.
  unfold settled. rewrite forallb_forall. intros H Hk.
  apply negb_true_iff, H. apply list_elem_of_In. by eapply list_elem_of_lookup_2.
Qed.

Lemma settled_delete id l n :
  settled id l = true -> settled id (delete n l) = true.
Proof.
  unfold settled. rewrite !forallb_forall. intros H k Hk. apply H.
  apply list_elem_of_In in Hk. apply list_elem_of_In.
  by eapply elem_of_sublist; [|apply (sublist_delete l n)].
Qed.

(** A paid session no call is polling for stays as it is, and no call
    starts polling for it. *)
Lemma turn_paid rt t (st : Async.State) id s :
  sessions (Js.heap (Async.world st)) !! id = Some s ->
  status s = paid ->
  settled id (Async.suspended st) = true ->
  sessions (Js.heap (Async.world (Async.turn rt t st))) !! id = Some s
  /\ settled id (Async.suspended (Async.turn rt t st)) = true.
Proof.
  intros Hs Hp Hq.
  destruct t as [j|n|]; cbn [Async.turn].
  - destruct (start_spec rt j (Async.world st)) as (step & w' & -> & Hw & _ & Hpaid & Hk).
    destruct (decide (j = id)) as [->|Hne].
    + destruct (Hpaid s Hs Hp) as [-> [c ->]]. by cbn.
    + assert (sessions (Js.heap w') !! id = Some s) as Hs'.
      { destruct Hw as [->|(s0 & st0 & now & p & _ & _ & ->)]; [done|].
        by rewrite lookup_insert_ne. }
      destruct step as [c|k]; cbn [Async.landed Async.world Async.suspended]; [done|].
      split; [done|]. rewrite settled_app, Hq. simpl.
      specialize (Hk k eq_refl). destruct k as [i ? ?|]; [|done].
      simpl in *. apply String.eqb_eq in Hk as ->.
      apply negb_true_iff. apply String.eqb_neq. done.
  - destruct (Async.suspended st !! n) as [k|] eqn:Hn; [|done].
    pose proof (settled_lookup id _ n k Hq Hn) as Hk.
    destruct (resume_spec rt k (Async.world st)) as (step & w' & -> & Hframe & _ & _ & Hk').
    pose proof (settled_delete id _ n Hq) as Hq'.
    destruct step as [c|k']; cbn [Async.landed Async.world Async.suspended].
    + split; [|done]. by rewrite (Hframe id Hk).
    + split; [by rewrite (Hframe id Hk)|].
      rewrite settled_app, Hq'. simpl. specialize (Hk' k' eq_refl).
      by destruct k'.
  - cbn [Async.world Async.suspended]. split; [|done].
    apply sweep_keeps; [done|]. by rewrite Hp.
Qed.

Lemma run_pending rt turns (st : Async.State) id s' :
  sessions (Js.heap (Async.world (Async.run rt turns st))) !! id = Some s' ->
  status s' = pending ->
  sessions (Js.heap (Async.world st)) !! id = Some s'.
Proof.
  revert st. induction turns as [|t turns IH]; intros st; simpl; [done|].
  intros H Hp. eapply turn_pending; [|done]. by apply IH.
Qed.

Lemma run_paid rt turns (st : Async.State) id s :
  sessions (Js.heap (Async.world st)) !! id = Some s ->
  status s = paid ->
  settled id (Async.suspended st) = true ->
  sessions (Js.heap (Async.world (Async.run rt turns st))) !! id = Some s
  /\ settled id (Async.suspended (Async.run rt turns st)) = true.
Proof.
  revert st. induction turns as [|t turns IH]; intros st Hs Hp Hq; simpl; [done|].
  destruct (turn_paid rt t st id s Hs Hp Hq) as [Hs' Hq']. by apply IH.
Qed.

(** C1 (amended).  Along every interleaving of handler calls, overlapping
    or not, and sweeps of the cleanup timer: a session that is stored
    and [pending] at the end is the session as it was at the start, so
    from [pending] the status moves only to [paid] or [expired], and a
    session that is [paid] or [expired] never becomes [pending]; a
    session that is [paid] never changes again once no call for its
    identifier is suspended at its status poll (a call that starts on a
    paid session ends at once; one that was polling when the payment
    was written can still overwrite it). *)
Theorem status_monotone rt turns (st : Async.State) id s :
  sessions (Js.heap (Async.world st)) !! id = Some s ->
  (forall s', sessions (Js.heap (Async.world (Async.run rt turns st))) !! id = Some s' ->
     (status s' = pending -> s' = s)
     /\ (status s <> pending -> status s' <> pending))
  /\ (status s = paid -> settled id (Async.suspended st) = true ->
      sessions (Js.heap (Async.world (Async.run rt turns st))) !! id = Some s).
Proof.
  intros Hs. split.
  - intros s' Hs'.
    assert (status s' = pending -> s' = s) as Hsame.
    { intros Hp. pose proof (run_pending rt turns st id s' Hs' Hp). congruence. }
    split; [done|].
    intros Hne Hp. apply Hne. by rewrite <- (Hsame Hp).
  - intros Hp Hq. by apply (run_paid rt turns st id s).
Qed.

Lemma status_monotone_witness :
  sessions (Js.heap (Async.world
     (Async.run Scenario.upstream_paid_api_down
        [Async.Call "chk_1"; Async.Sweep; Async.Resume 0; Async.Call "chk_1"]
        (Scenario.in_flight Scenario.upstream_paid_api_down [Async.Call "chk_1"; Async.Resume 0]))))
    !! "chk_1"
  = Some (touched (fresh Scenario.order (Some 1000%Z)) paid (Some 1000%Z)
            (Some (Some 1714557600000%Z)))
  /\ forall s',
       sessions (Js.heap (Async.world
          (Async.run Scenario.upstream_expired_then_paid
             [Async.Call "chk_1"; Async.Sweep; Async.Resume 0; Async.Resume 0]
             (Scenario.in_flight Scenario.upstream_expired_then_paid
                [Async.Call "chk_1"; Async.Resume 0])))) !! "chk_1" = Some s' ->
       status s' <> pending.
Proof.
  split.
  - apply (status_monotone Scenario.upstream_paid_api_down
             [Async.Call "chk_1"; Async.Sweep; Async.Resume 0; Async.Call "chk_1"]
             (Scenario.in_flight Scenario.upstream_paid_api_down [Async.Call "chk_1"; Async.Resume 0])
             "chk_1"
             (touched (fresh Scenario.order (Some 1000%Z)) paid (Some 1000%Z)
                (Some (Some 1714557600000%Z)))).
    + vm_compute. reflexivity.
    + reflexivity.
    + vm_compute. reflexivity.
  - intros s' Hs'.
    apply (status_monotone Scenario.upstream_expired_then_paid
             [Async.Call "chk_1"; Async.Sweep; Async.Resume 0; Async.Resume 0]
             (Scenario.in_flight Scenario.upstream_expired_then_paid [Async.Call "chk_1"; Async.Resume 0])
             "chk_1"
             (touched (fresh Scenario.order (Some 1000%Z)) expired (Some 1000%Z) None)).
    + vm_compute. reflexivity.
    + exact Hs'.
    + discriminate.
Defined.

(** C1, as stated, fails twice.  An [expired] session becomes [paid]: the
    provider reports the invoice expired, the next call polls again and
    the provider reports the payment.  A [paid] session becomes
    [expired]: two calls overlap, the second to poll is resumed first
    and writes [paid], then the first is resumed with the answer
    [expired]. *)
Lemma paid_and_expired_are_not_final :
  Scenario.status_of
    (Async.world (Scenario.in_flight Scenario.upstream_expired_then_paid
                    [Async.Call "chk_1"; Async.Resume 0])) "chk_1" = Some expired
  /\ Scenario.status_of
       (Async.world (Scenario.in_flight Scenario.upstream_expired_then_paid
                       [Async.Call "chk_1"; Async.Resume 0;
                        Async.Call "chk_1"; Async.Resume 0; Async.Resume 0])) "chk_1"
     = Some paid
  /\ Scenario.status_of
       (Async.world (Scenario.in_flight Scenario.upstream_expired_then_paid
                       [Async.Call "chk_1"; Async.Call "chk_1"; Async.Resume 1])) "chk_1"
     = Some paid
  /\ Scenario.status_of
       (Async.world (Scenario.in_flight Scenario.upstream_expired_then_paid
                       [Async.Call "chk_1"; Async.Call "chk_1"; Async.Resume 1;
                        Async.Resume 0])) "chk_1"
     = Some expired.
Proof. repeat apply conj; vm_compute; reflexivity. Qed.





(** Nothing bounds the notifications by the sessions: two overlapping
    polls of one unpaid session both report the payment. *)
Lemma overlapping_polls_notify_twice :
  notifications
    (Js.trace (Async.world (Scenario.in_flight Scenario.upstream_paid
                              [Async.Call "chk_1"; Async.Call "chk_1";
                               Async.Resume 0; Async.Resume 0]))) = 2%nat.
Proof. vm_compute. reflexivity. Qed.
